(** * airtable/client.py: a shallow embedding of [AirTableCachingClient]

    The development follows the Python module top to bottom: Python
    values and dictionaries, the exceptions the client can raise, the
    record transcoders, the four HTTP operations over a scripted
    session, and the record matcher.  The statements and their proofs
    come last.

    How the Python is read:
    - a [dict] is its list of items in insertion order; the statements
      that need it assume no key occurs twice ([Dict.wf]);
    - a method that can raise returns an [outcome]; a method that talks
      to the service also returns the client and the session it leaves
      behind, since [get] changes the client's headers in place;
    - [requests.Session] is a script: the responses still to come and
      the log of requests received;
    - [_identify_errors] and the logger only log and are left out;
      [jsonify] cannot fail on the values modelled, so a request body is
      kept as the value handed to it;
    - the rows given to [match_at_rec_id] are distinct objects, compared
      with Python's [==], and so are the values they hold: inside a list
      or a dictionary CPython takes an item for equal to itself before
      it asks [==], which shows for one NaN object held by two rows
      ([math.nan]) and is read here as two NaNs, equal to nothing.  The
      direct comparisons [d[key] == rec[key]] have no such shortcut;
      [updated.remove(rec)] is the one place that has. *)

From Stdlib Require Import List String Ascii ZArith Bool Arith Lia.
From Stdlib Require Import Floats.SpecFloat.
Import ListNotations.

Local Open Scope string_scope.

Set Warnings "-register-all".

(* ================================================================== *)
(** ** Python values *)

(** The values that flow through the client: what [json] produces and
    consumes, with floats as IEEE-754 data ([spec_float] has one NaN,
    two infinities, signed zeros and finite sign/mantissa/exponent
    triples).  A [dict] is kept as its ordered item list; Python keeps
    insertion order and never holds a key twice. *)
Inductive value : Type :=
| VNone
| VBool (b : bool)
| VInt (z : Z)
| VFloat (f : spec_float)
| VStr (s : string)
| VList (l : list value)
| VDict (d : list (string * value)).

Definition pydict : Type := list (string * value).

(** [math.inf], [math.nan] and unary minus on floats. *)
Definition inf : spec_float := S754_infinity false.
Definition nan : spec_float := S754_nan.
Definition neg_inf : spec_float := SFopp inf.

Definition isinf (f : spec_float) : bool :=
  match f with S754_infinity _ => true | _ => false end.

Definition isnan (f : spec_float) : bool :=
  match f with S754_nan => true | _ => false end.

(** [v > 0] and [v < 0] for a float [v]. *)
Definition float_gt0 (f : spec_float) : bool := SFltb (S754_zero false) f.
Definition float_lt0 (f : spec_float) : bool := SFltb f (S754_zero false).

Module Dict.

(** [d.get(k)] as an option, [d[k] = v], [d.update(e)], [k in d]. *)
Fixpoint get (d : pydict) (k : string) : option value :=
  match d with
  | [] => None
  | (k', v) :: d' => if String.eqb k' k then Some v else get d' k
  end.

Fixpoint set (d : pydict) (k : string) (v : value) : pydict :=
  match d with
  | [] => [(k, v)]
  | (k', v') :: d' =>
      if String.eqb k' k then (k', v) :: d' else (k', v') :: set d' k v
  end.

Definition update (d e : pydict) : pydict :=
  fold_left (fun acc kv => set acc (fst kv) (snd kv)) e d.

Definition keys (d : pydict) : list string := map fst d.

(** [d.get(k)] with Python's default [None]. *)
Definition get_default (d : pydict) (k : string) : value :=
  match get d k with Some v => v | None => VNone end.

(** A list of items is a dictionary when no key occurs twice. *)
Definition wf (d : pydict) : Prop := NoDup (keys d).

End Dict.

(** Truth value testing ([if v:], [while v:], [a and b]). *)
Definition truthy (v : value) : bool :=
  match v with
  | VNone => false
  | VBool b => b
  | VInt z => negb (z =? 0)%Z
  | VFloat (S754_zero _) => false
  | VFloat _ => true
  | VStr s => negb (String.eqb s "")
  | VList [] => false
  | VList _ => true
  | VDict [] => false
  | VDict _ => true
  end.

(** [x is True] and [x is None]. *)
Definition is_True (v : value) : bool :=
  match v with VBool true => true | _ => false end.

Definition is_None (v : value) : bool :=
  match v with VNone => true | _ => false end.

(** Exact comparison of a float with an integer, as Python does it. *)
Definition float_eq_int (f : spec_float) (z : Z) : bool :=
  match f with
  | S754_zero _ => (z =? 0)%Z
  | S754_finite s m e =>
      let mz := if s then Zneg m else Zpos m in
      if (0 <=? e)%Z then (z =? mz * 2 ^ e)%Z
      else (z * 2 ^ (- e) =? mz)%Z
  | _ => false
  end.

Definition bool_int (b : bool) : Z := if b then 1%Z else 0%Z.

(** Python's [==] on values.  Numbers compare by value across [bool],
    [int] and [float]; NaN equals nothing; lists compare item by item;
    dictionaries compare as maps, whatever the order of their items.
    Items are compared by content only: values carry no identity here,
    so a NaN inside a list or a dictionary differs from every NaN, as
    it does in CPython unless both sides hold the very same object. *)
Fixpoint py_eq (a b : value) {struct a} : bool :=
  match a, b with
  | VNone, VNone => true
  | VBool x, VBool y => Bool.eqb x y
  | VBool x, VInt y => (bool_int x =? y)%Z
  | VBool x, VFloat y => float_eq_int y (bool_int x)
  | VInt x, VBool y => (x =? bool_int y)%Z
  | VInt x, VInt y => (x =? y)%Z
  | VInt x, VFloat y => float_eq_int y x
  | VFloat x, VBool y => float_eq_int x (bool_int y)
  | VFloat x, VInt y => float_eq_int x y
  | VFloat x, VFloat y => SFeqb x y
  | VStr s, VStr t => String.eqb s t
  | VList l, VList m =>
      (fix items (l m : list value) : bool :=
         match l, m with
         | [], [] => true
         | x :: l', y :: m' => py_eq x y && items l' m'
         | _, _ => false
         end) l m
  | VDict d, VDict e =>
      Nat.eqb (List.length d) (List.length e) &&
      (fix items (d : list (string * value)) : bool :=
         match d with
         | [] => true
         | (k, v) :: d' =>
             match Dict.get e k with
             | Some w => py_eq v w && items d'
             | None => false
             end
         end) d
  | _, _ => false
  end.

(* ================================================================== *)
(** ** Exceptions *)

(** The three [RuntimeError]s of the module, by their message:
    ["Airtable Cache did not return 200 ({r.status_code}): {r.text}"] in
    [get], ["Airtable did not return 200: {r.text}"] in [write], [update]
    and [delete], and the duplicate records of [match_at_rec_id]. *)
Inductive runtime_detail : Type :=
| NotOk (status_code : Z) (text : string)
| DidNotReturn200 (text : string)
| DuplicateRecords (keys : list string) (rec_id_list : list pydict).

Inductive exn : Type :=
| KeyError (key : string)
| TypeError
| AttributeError
| RuntimeError (detail : runtime_detail)
| ConnectionError.

Inductive outcome (A : Type) : Type :=
| Ok (a : A)
| Raise (e : exn).

Arguments Ok {A} a.
Arguments Raise {A} e.

Definition bind {A B : Type} (m : outcome A) (k : A -> outcome B) : outcome B :=
  match m with
  | Ok a => k a
  | Raise e => Raise e
  end.

Notation "x <- m ;; k" := (bind m (fun x => k))
  (at level 61, m at next level, right associativity).

Definition raised {A : Type} (m : outcome A) : bool :=
  match m with Ok _ => false | Raise _ => true end.

(** A [for] loop whose body may raise, collecting one result per item. *)
Fixpoint for_each {A B : Type} (body : A -> outcome B) (l : list A)
  : outcome (list B) :=
  match l with
  | [] => Ok []
  | x :: l' =>
      y <- body x ;;
      ys <- for_each body l' ;;
      Ok (y :: ys)
  end.

(** [d[k]] on a dictionary. *)
Definition subscript (d : pydict) (k : string) : outcome value :=
  match Dict.get d k with
  | Some v => Ok v
  | None => Raise (KeyError k)
  end.

(** What [list.extend(v)] appends: the items of a list, the characters
    of a string, the keys of a dictionary; anything else is not
    iterable. *)
Definition iterate (v : value) : outcome (list value) :=
  match v with
  | VList l => Ok l
  | VStr s => Ok (map (fun c => VStr (String c EmptyString)) (list_ascii_of_string s))
  | VDict d => Ok (map VStr (Dict.keys d))
  | _ => Raise TypeError
  end.

(* ================================================================== *)
(** ** The client object *)

Record client : Type := mkClient {
  _at_rec_id : string;
  _cache_url : string;
  _at_url : string;
  _base : option string;
  _personal_token : option string;
  __webhook_headers : option pydict;
  __headers : pydict;
  __cache_header : pydict;
  _cache_token : option string;
  _process : bool
}.

Definition opt_str (o : option string) : value :=
  match o with Some s => VStr s | None => VNone end.

(** [AirTableCachingClient.__init__]; the session and the logger are
    external collaborators and are not fields of the model. *)
Definition __init__ (apikey : string) (process : bool)
    (personal_token cache_token base : option string) : client :=
  {| _at_rec_id := "at_record_id";
     _cache_url := "https://at-cache-hfrsqgk6ja-uc.a.run.app/airtable/v0";
     _at_url := "https://api.airtable.com/v0";
     _base := base;
     _personal_token := personal_token;
     __webhook_headers :=
       match personal_token with
       | Some tok => Some [("Authorization", VStr ("Bearer " ++ tok));
                           ("Content-Type", VStr "application/json")]
       | None => None
       end;
     __headers := [("Authorization", VStr ("Bearer " ++ apikey));
                   ("Content-Type", VStr "application/json")];
     __cache_header := [("X-Mw-Bearer", opt_str cache_token)];
     _cache_token := cache_token;
     _process := process |}.

(* ================================================================== *)
(** ** Record transcoders *)

(** The body of the inner loop of [_process_records_from_at]: one
    [(k, v)] of [row["fields"].items()] against the row being built. *)
Definition from_at_field (newrow : pydict) (kv : string * value) : pydict :=
  let '(k, v) := kv in
  match v with
  | VDict d =>
      if truthy (Dict.get_default d "specialValue") then
        let sv := Dict.get_default d "specialValue" in
        if py_eq sv (VStr "Infinity") then Dict.set newrow k (VFloat inf)
        else if py_eq sv (VStr "-Infinity") then Dict.set newrow k (VFloat neg_inf)
        else if py_eq sv (VStr "NaN") then Dict.set newrow k (VFloat nan)
        else newrow
      else Dict.set newrow k v
  | _ => Dict.set newrow k v
  end.

Definition from_at_row (self : client) (keep_id : bool) (row : value)
  : outcome pydict :=
  match row with
  | VDict r =>
      newrow <- (if keep_id
                 then (i <- subscript r "id" ;; Ok [(_at_rec_id self, i)])
                 else Ok []) ;;
      fields <- subscript r "fields" ;;
      match fields with
      | VDict fs => Ok (fold_left from_at_field fs newrow)
      | _ => Raise AttributeError
      end
  | _ => Raise TypeError
  end.

Definition _process_records_from_at (self : client) (records : list value)
    (keep_id : bool) : outcome (list pydict) :=
  for_each (from_at_row self keep_id) records.

(** Step 2 of [_process_records_for_at]: the tag a float is replaced
    by, if any. *)
Definition special_label (v : value) : option string :=
  match v with
  | VFloat f =>
      if isinf f && float_gt0 f then Some "Infinity"
      else if isinf f && float_lt0 f then Some "-Infinity"
      else if isnan f then Some "NaN"
      else None
  | _ => None
  end.

(** The body of the loop of step 2: [newrow[k] = {label: ...}] for one
    item [(k, v)] of [newrow.items()].  Assigning to a key that is
    there does not disturb the iteration. *)
Definition for_at_field (newrow : pydict) (kv : string * value) : pydict :=
  match special_label (snd kv) with
  | Some tag => Dict.set newrow (fst kv) (VDict [("specialValue", VStr tag)])
  | None => newrow
  end.

(** Step 1 of [_process_records_for_at]: the copy of the row, without
    its [None] entries unless [keep_none]. *)
Definition resolve_none (keep_none : bool) (row : pydict) : pydict :=
  if keep_none then row
  else filter (fun kv => negb (is_None (snd kv))) row.

Definition for_at_row (self : client) (keep_none new : bool) (row : value)
  : outcome value :=
  match row with
  | VDict row =>
      (* 1. resolve None values *)
      let newrow := resolve_none keep_none row in
      (* 2. format specialValues for AT *)
      let newrow := fold_left for_at_field newrow newrow in
      (* 3. create AT data record format *)
      if new then Ok (VDict [("fields", VDict newrow)])
      else
        let data :=
          filter (fun kv => negb (String.eqb (fst kv) (_at_rec_id self))) newrow in
        i <- subscript newrow (_at_rec_id self) ;;
        Ok (VDict [("id", i); ("fields", VDict data)])
  | _ => Raise AttributeError
  end.

(** The result is a list when [new], a [{"records": [...]}] dictionary
    otherwise; both are values. *)
Definition _process_records_for_at (self : client) (records : list value)
    (keep_none new : bool) : outcome value :=
  output <- for_each (for_at_row self keep_none new) records ;;
  Ok (if new then VList output else VDict [("records", VList output)]).

(* ================================================================== *)
(** ** The HTTP collaborator *)

Inductive http_method : Type := GET | POST | PATCH | DELETE.

(** A request as the client hands it to [requests]: [data] is the object
    given to [jsonify]; every model value serialises, so the body is kept
    as the value itself. *)
Record request : Type := mkRequest {
  req_method : http_method;
  req_url : string;
  req_headers : pydict;
  req_params : pydict;
  req_data : option value
}.

(** A response: [r.status_code], [r.json()] and [r.text].  The text is
    the body as it was received and [json] its decoding; the client
    reads the text for its error messages only, and nothing here depends
    on how the two are related. *)
Record response : Type := mkResponse {
  status_code : Z;
  json : value;
  text : string
}.

(** The session is scripted: the responses the service will give, in
    order, and the requests it has received so far.  A request with no
    response left fails in the transport. *)
Record session : Type := mkSession {
  pending : list response;
  sent : list request
}.

Definition send (s : session) (rq : request) : outcome response * session :=
  match pending s with
  | [] => (Raise ConnectionError, mkSession [] (sent s ++ [rq]))
  | r :: rest => (Ok r, mkSession rest (sent s ++ [rq]))
  end.

(** [base if base else self._base]; the attribute [_base] exists only if
    the constructor was given a base. *)
Definition resolve_base (self : client) (base : option string) : outcome string :=
  match base with
  | Some b =>
      if truthy (VStr b) then Ok b
      else match _base self with Some b' => Ok b' | None => Raise AttributeError end
  | None =>
      match _base self with Some b' => Ok b' | None => Raise AttributeError end
  end.

Definition resolve_process (self : client) (process : option bool) : bool :=
  match process with None => _process self | Some p => p end.

Definition endpoint (url base table : string) : string :=
  url ++ "/" ++ base ++ "/" ++ table.

(** [key in v] for the values that support it. *)
Definition contains_key (v : value) (key : string) : outcome bool :=
  match v with
  | VDict d => Ok (match Dict.get d key with Some _ => true | None => false end)
  | VList l => Ok (existsb (fun x => py_eq x (VStr key)) l)
  | VStr s =>
      Ok (match index 0 key s with Some _ => true | None => false end)
  | _ => Raise TypeError
  end.

(** [v["records"]] followed by the iteration [list.extend] performs. *)
Definition body_records (v : value) : outcome (list value) :=
  match v with
  | VDict d => recs <- subscript d "records" ;; iterate recs
  | _ => Raise TypeError
  end.

(* ================================================================== *)
(** ** Batch planner *)

(** [range(0, stop, step)] for a positive [step]. *)
Definition range0 (stop step : nat) : list nat :=
  map (fun k => k * step)%nat
      (seq 0 (if Nat.eqb stop 0 then 0 else (stop - 1) / step + 1))%nat.

(** [data[i:j]] for [0 <= i <= j]. *)
Definition slice {A : Type} (data : list A) (i j : nat) : list A :=
  firstn (j - i)%nat (skipn i data).

(** [[data[i : i + n] for i in range(0, len(data), n)]]. *)
Definition chunks {A : Type} (data : list A) (n : nat) : list (list A) :=
  map (fun i => slice data i (i + n)%nat) (range0 (List.length data) n).

(** [n = 10  # current limit per request] *)
Definition n_limit : nat := 10.

(* ================================================================== *)
(** ** get *)

(** What one page contributes:
    [json_object["records"] if json_object.get("records") else []]. *)
Definition page_records (body : value) : outcome (list value) :=
  match body with
  | VDict d =>
      if truthy (Dict.get_default d "records")
      then recs <- subscript d "records" ;; iterate recs
      else Ok []
  | _ => Raise AttributeError
  end.

(** [json_object.get("offset")], once [json_object] is known to be a
    dictionary. *)
Definition page_offset (body : value) : value :=
  match body with
  | VDict d => Dict.get_default d "offset"
  | _ => VNone
  end.

(** The [while offset:] loop of [get].  Each iteration consumes one
    scripted response, so the loop is written by recursion on the
    responses still pending; [sent] is the log of requests. *)
Fixpoint get_pages (pending : list response) (sent : list request)
    (url : string) (headers params : pydict) (offset : value)
    (records : list value) {struct pending}
  : outcome (list value) * session :=
  if truthy offset then
    let params :=
      if truthy offset && negb (is_True offset)
      then Dict.update params [("offset", offset)]
      else params in
    let rq := mkRequest GET url headers params None in
    match pending with
    | [] => (Raise ConnectionError, mkSession [] (sent ++ [rq]))
    | r :: rest =>
        if negb (status_code r =? 200)%Z then
          (Raise (RuntimeError (NotOk (status_code r) (text r))),
           mkSession rest (sent ++ [rq]))
        else
          match page_records (json r) with
          | Raise e => (Raise e, mkSession rest (sent ++ [rq]))
          | Ok recs =>
              get_pages rest (sent ++ [rq]) url headers params
                        (page_offset (json r)) (records ++ recs)
          end
    end
  else (Ok records, mkSession pending sent).

Definition set_headers (self : client) (h : pydict) : client :=
  {| _at_rec_id := _at_rec_id self;
     _cache_url := _cache_url self;
     _at_url := _at_url self;
     _base := _base self;
     _personal_token := _personal_token self;
     __webhook_headers := __webhook_headers self;
     __headers := h;
     __cache_header := __cache_header self;
     _cache_token := _cache_token self;
     _process := _process self |}.

(** The end of [get]: the records as they came, or decoded when
    [process] is set. *)
Definition return_records (self : client) (process : bool)
    (records : list value) : outcome (list value) :=
  if process
  then rows <- _process_records_from_at self records true ;;
       Ok (map VDict rows)
  else Ok records.

(** [get].  [headers = self.__headers] is an alias, so
    [headers.update(...)] changes the client's own dictionary: the
    method returns the client it leaves behind. *)
Definition get (self : client) (s : session) (table : string)
    (view base : option string) (process : option bool) (direct : bool)
  : outcome (list value) * client * session :=
  let direct := match _cache_token self with None => true | Some _ => direct end in
  match resolve_base self base with
  | Raise e => (Raise e, self, s)
  | Ok base =>
      let process := resolve_process self process in
      let url := if direct then _at_url self else _cache_url self in
      let self :=
        if direct then self
        else set_headers self (Dict.update (__headers self) (__cache_header self)) in
      let headers := __headers self in
      let url := endpoint url base table in
      let params :=
        match view with
        | Some v => if truthy (VStr v) then Dict.update [] [("view", VStr v)] else []
        | None => []
        end in
      let '(res, s') :=
        get_pages (pending s) (sent s) url headers params (VBool true) [] in
      (records <- res ;; return_records self process records, self, s')
  end.

(* ================================================================== *)
(** ** write, update, delete *)

(** [if type(data) == dict: data = data["records"]] *)
Definition unwrap_records (data : value) : outcome value :=
  match data with
  | VDict d => subscript d "records"
  | _ => Ok data
  end.

(** What [len(data)] and [data[i : i + n]] accept: a list, whose
    slices are lists, and a string, whose slices are strings.  A
    dictionary has a length but no slices: an empty one gives no chunk,
    any other fails on its first slice ([TypeError], the slice being
    unhashable; a [KeyError] on the slice from Python 3.12 on).  Nothing
    else has a length. *)
Inductive sequence : Type :=
| SeqList (items : list value)
| SeqStr (chars : string).

Definition as_sequence (data : value) : outcome sequence :=
  match data with
  | VList l => Ok (SeqList l)
  | VStr t => Ok (SeqStr t)
  | VDict [] => Ok (SeqList [])
  | _ => Raise TypeError
  end.

(** The [for chunk in chunks:] loop shared by the three mutating
    methods: one request per chunk, [classify] turning the response into
    the records to append or into the exception raised. *)
Fixpoint send_chunks {A : Type} (mk : list A -> request)
    (classify : response -> outcome (list value))
    (chunks : list (list A)) (records : list value) (s : session)
  : outcome (list value) * session :=
  match chunks with
  | [] => (Ok records, s)
  | chunk :: rest =>
      match send s (mk chunk) with
      | (Raise e, s') => (Raise e, s')
      | (Ok r, s') =>
          match classify r with
          | Raise e => (Raise e, s')
          | Ok recs => send_chunks mk classify rest (records ++ recs) s'
          end
      end
  end.

(** [write] and [update] look for an ["error"] member before raising;
    [_identify_errors] only logs. *)
Definition classify_write (r : response) : outcome (list value) :=
  if negb (status_code r =? 200)%Z then
    _ <- contains_key (json r) "error" ;;
    Raise (RuntimeError (DidNotReturn200 (text r)))
  else body_records (json r).

Definition classify_delete (r : response) : outcome (list value) :=
  if negb (status_code r =? 200)%Z
  then Raise (RuntimeError (DidNotReturn200 (text r)))
  else body_records (json r).

Definition records_body (chunk : list value) : option value :=
  Some (VDict [("records", VList chunk)]).

(** The same body for a slice of a string. *)
Definition text_body (chunk : list ascii) : option value :=
  Some (VDict [("records", VStr (string_of_list_ascii chunk))]).

(** [chunks = [data[i : i + n] for i in range(0, len(data), n)]] and the
    loop over them, [body] turning a request body into the request of
    the method. *)
Definition send_sequence (body : option value -> request)
    (classify : response -> outcome (list value)) (data : sequence)
    (s : session) : outcome (list value) * session :=
  match data with
  | SeqList items =>
      send_chunks (fun chunk => body (records_body chunk)) classify
                  (chunks items n_limit) [] s
  | SeqStr chars =>
      send_chunks (fun chunk => body (text_body chunk)) classify
                  (chunks (list_ascii_of_string chars) n_limit) [] s
  end.

Definition write (self : client) (s : session) (table : string)
    (data : value) (base : option string) (process : option bool)
  : outcome (list value) * client * session :=
  match
    (base <- resolve_base self base ;;
     let process := resolve_process self process in
     data <- (if process
              then rows <- iterate data ;;
                   _process_records_for_at self rows false true
              else Ok data) ;;
     data <- unwrap_records data ;;
     data <- as_sequence data ;;
     Ok (base, data))
  with
  | Raise e => (Raise e, self, s)
  | Ok (base, data) =>
      let '(res, s') :=
        send_sequence
          (mkRequest POST (endpoint (_at_url self) base table) (__headers self) [])
          classify_write data s in
      (res, self, s')
  end.

Definition update (self : client) (s : session) (table : string)
    (data : value) (base : option string) (process : option bool)
    (keep_none : bool)
  : outcome (list value) * client * session :=
  match
    (base <- resolve_base self base ;;
     let process := resolve_process self process in
     data <- (if process
              then rows <- iterate data ;;
                   _process_records_for_at self rows keep_none false
              else Ok data) ;;
     data <- unwrap_records data ;;
     data <- as_sequence data ;;
     Ok (base, data))
  with
  | Raise e => (Raise e, self, s)
  | Ok (base, data) =>
      let '(res, s') :=
        send_sequence
          (mkRequest PATCH (endpoint (_at_url self) base table) (__headers self) [])
          classify_write data s in
      (res, self, s')
  end.

Definition delete (self : client) (s : session) (table : string)
    (list_of_ids : list string) (base : option string)
  : outcome (list value) * client * session :=
  match resolve_base self base with
  | Raise e => (Raise e, self, s)
  | Ok base =>
      let '(res, s') :=
        send_chunks
          (fun chunk => mkRequest DELETE (endpoint (_at_url self) base table)
                                  (__headers self)
                                  [("records[]", VList (map VStr chunk))] None)
          classify_delete (chunks list_of_ids n_limit) [] s in
      (res, self, s')
  end.

(* ================================================================== *)
(** ** match_at_rec_id *)

(** [all(d[key] == rec[key] for key in keys)] *)
Fixpoint keys_agree (d rec : pydict) (keys : list string) : outcome bool :=
  match keys with
  | [] => Ok true
  | key :: keys' =>
      a <- subscript d key ;;
      b <- subscript rec key ;;
      if py_eq a b then keys_agree d rec keys' else Ok false
  end.

(** [list(filter(p, l))] for a predicate that may raise. *)
Fixpoint filter_rows (p : pydict -> outcome bool) (l : list pydict)
  : outcome (list pydict) :=
  match l with
  | [] => Ok []
  | d :: l' =>
      keep <- p d ;;
      tl <- filter_rows p l' ;;
      Ok (if keep then d :: tl else tl)
  end.

(** [{k: rec[k] for k in keys}] *)
Fixpoint uid_of (rec : pydict) (keys : list string) (acc : pydict)
  : outcome pydict :=
  match keys with
  | [] => Ok acc
  | k :: keys' => v <- subscript rec k ;; uid_of rec keys' (Dict.set acc k v)
  end.

(** [updated.remove(rec)] when [rec] is the object at index [i]: the
    first item that is [rec] itself or equal to it goes.  The items
    before index [i] are other objects than [rec] and are compared with
    [py_eq]. *)
Fixpoint remove_rec (i : nat) (rec : pydict) (updated : list pydict)
    {struct updated} : list pydict :=
  match updated with
  | [] => []
  | x :: rest =>
      match i with
      | O => rest
      | S i' =>
          if py_eq (VDict x) (VDict rec) then rest
          else x :: remove_rec i' rec rest
      end
  end.

(** [rec[k] = v] for the dictionary object at index [i] of a list. *)
Fixpoint assign_at (i : nat) (k : string) (v : value) (l : list pydict)
    {struct l} : list pydict :=
  match l, i with
  | [], _ => []
  | x :: rest, O => Dict.set x k v :: rest
  | x :: rest, S i' => x :: assign_at i' k v rest
  end.

Definition match_result : Type := list pydict * list pydict * list pydict.

(** The [for rec in updated:] loop.  Python's list iterator is an index
    into the list it walks, and the body removes items from that very
    list, so the loop state is the index [i] with the current list.
    Every iteration advances [i] and never lengthens the list; [fuel]
    bounds the number of iterations and [None] means it ran out, which
    the initial length never lets happen. *)
Fixpoint match_loop (self : client) (data_w_id : list pydict)
    (keys : list string) (fuel i : nat)
    (updated missing_id not_updated : list pydict) {struct fuel}
  : option (outcome match_result) :=
  match nth_error updated i with
  | None => Some (Ok (updated, missing_id, not_updated))
  | Some rec =>
      match fuel with
      | O => None
      | S fuel' =>
          match filter_rows (fun d => keys_agree d rec keys) data_w_id with
          | Raise e => Some (Raise e)
          | Ok rec_id_list =>
              match rec_id_list with
              | rec_id :: _ =>
                  if (1 <? List.length rec_id_list)%nat then
                    Some (Raise (RuntimeError (DuplicateRecords keys rec_id_list)))
                  else
                    match subscript rec_id (_at_rec_id self) with
                    | Raise e => Some (Raise e)
                    | Ok v =>
                        match_loop self data_w_id keys fuel' (S i)
                          (assign_at i (_at_rec_id self) v updated)
                          missing_id not_updated
                    end
              | [] =>
                  match uid_of rec keys [] with
                  | Raise e => Some (Raise e)
                  | Ok uid =>
                      match_loop self data_w_id keys fuel' (S i)
                        (remove_rec i rec updated)
                        (missing_id ++ [uid]) (not_updated ++ [rec])
                  end
              end
          end
      end
  end.

(** [match_at_rec_id]: [updated] starts as a copy of [data_wo_id], whose
    length bounds the iterations. *)
Definition match_at_rec_id (self : client) (data_wo_id data_w_id : list pydict)
    (keys : list string) : option (outcome match_result) :=
  match_loop self data_w_id keys (List.length data_wo_id) 0 data_wo_id [] [].

Local Open Scope list_scope.

(* ================================================================== *)
(** ** Vocabulary of the statements *)

(** Scalars: everything but arrays and objects. *)
Definition is_scalar (v : value) : bool :=
  match v with
  | VList _ | VDict _ => false
  | _ => true
  end.

(** The wire form of a field value: the tagged object for a non-finite
    float, the value itself otherwise. *)
Definition encoded (v : value) : value :=
  match special_label v with
  | Some tag => VDict [("specialValue", VStr tag)]
  | None => v
  end.

(** [v] is an object whose ["specialValue"] member is the string [tag]. *)
Definition tagged (v : value) (tag : string) : Prop :=
  exists d, v = VDict d /\ Dict.get d "specialValue" = Some (VStr tag).

(** [v] is not an object, or an object whose ["specialValue"] member is
    absent or falsy. *)
Definition untagged (v : value) : Prop :=
  match v with
  | VDict d => truthy (Dict.get_default d "specialValue") = false
  | _ => True
  end.

(** A flat row without its reserved identifier key. *)
Definition without_id (self : client) (row : pydict) : pydict :=
  filter (fun kv => negb (String.eqb (fst kv) (_at_rec_id self))) row.

(** A response the read loop accepts: status 200 and a body whose
    records can be appended. *)
Definition good_page (r : response) : bool :=
  (status_code r =? 200)%Z && negb (raised (page_records (json r))).

(** The records a page contributes. *)
Definition page_items (r : response) : list value :=
  match page_records (json r) with
  | Ok recs => recs
  | Raise _ => []
  end.

(** The response carries a cursor the loop goes on with: its
    ["offset"] is truthy and is not the object [True]. *)
Definition has_cursor (r : response) : bool :=
  truthy (page_offset (json r)) && negb (is_True (page_offset (json r))).

(** The response ends the loop: its ["offset"] is absent or falsy. *)
Definition ends_stream (r : response) : bool :=
  negb (truthy (page_offset (json r))).

(** The records a [write] payload holds: the list itself, or the list
    under ["records"] of a dictionary. *)
Definition payload_records (data : value) : option (list value) :=
  match data with
  | VList rows => Some rows
  | VDict d =>
      match Dict.get d "records" with
      | Some (VList rows) => Some rows
      | _ => None
      end
  | _ => None
  end.

Definition outcome_of {A : Type} (x : outcome A * client * session) : outcome A :=
  fst (fst x).

Definition client_after {A : Type} (x : outcome A * client * session) : client :=
  snd (fst x).

Definition session_after {A : Type} (x : outcome A * client * session) : session :=
  snd x.

(** The cache token is configured: the client holds it, as its
    constructor leaves it. *)
Definition cache_configured (self : client) (tok : string) : Prop :=
  _cache_token self = Some tok
  /\ __cache_header self = [("X-Mw-Bearer", VStr tok)].

(** The request carries the cache header. *)
Definition sends_cache_header (tok : string) (rq : request) : Prop :=
  Dict.get (req_headers rq) "X-Mw-Bearer" = Some (VStr tok).

(** A call of one of the four public operations. *)
Inductive call : Type :=
| CallGet (table : string) (view base : option string)
          (process : option bool) (direct : bool)
| CallWrite (table : string) (data : value) (base : option string)
            (process : option bool)
| CallUpdate (table : string) (data : value) (base : option string)
             (process : option bool) (keep_none : bool)
| CallDelete (table : string) (list_of_ids : list string) (base : option string).

(** The client and the session a call leaves behind, whether it
    returned or raised. *)
Definition run_call (st : client * session) (c : call) : client * session :=
  let '(self, s) := st in
  match c with
  | CallGet table view base process direct =>
      let r := get self s table view base process direct in
      (client_after r, session_after r)
  | CallWrite table data base process =>
      let r := write self s table data base process in
      (client_after r, session_after r)
  | CallUpdate table data base process keep_none =>
      let r := update self s table data base process keep_none in
      (client_after r, session_after r)
  | CallDelete table list_of_ids base =>
      let r := delete self s table list_of_ids base in
      (client_after r, session_after r)
  end.

Definition run_calls (st : client * session) (cs : list call) : client * session :=
  fold_left run_call cs st.

(** ** Definitions used by the proofs and sample data *)

Definition encode_item (kv : string * value) : string * value :=
  (fst kv, encoded (snd kv)).

(** What step 1 and step 2 leave under key [k] of a row, given the
    row's own entry. *)
Definition kept_entry (keep_none : bool) (entry : option value) : option value :=
  match entry with
  | Some VNone => if keep_none then Some VNone else None
  | Some v => Some (encoded v)
  | None => None
  end.

Definition row_a1_bnull : pydict := [("a", VInt 1); ("b", VNone)].

(** What one field contributes to the row: the value assigned under
    its key, or nothing. *)
Definition field_effect (v : value) : option value :=
  match v with
  | VDict d =>
      let sv := Dict.get_default d "specialValue" in
      if truthy sv then
        if py_eq sv (VStr "Infinity") then Some (VFloat inf)
        else if py_eq sv (VStr "-Infinity") then Some (VFloat neg_inf)
        else if py_eq sv (VStr "NaN") then Some (VFloat nan)
        else None
      else Some v
  | _ => Some v
  end.

Definition sendable (kv : string * value) : bool :=
  is_scalar (snd kv) && negb (is_None (snd kv)).

Definition sample_client : client := __init__ "key" true None (Some "tok") (Some "appX").

Definition sample_rows : list pydict :=
  [[("name", VStr "ada"); ("n", VInt 3); ("ok", VBool true)];
   [("hi", VFloat inf); ("lo", VFloat neg_inf); ("q", VFloat nan);
    ("h", VFloat (S754_finite false 7 (-1)))]].

Definition row_a_null : pydict := [("a", VNone)].

Definition sample_wire_fields : pydict :=
  [("q", VDict [("specialValue", VStr "NaN")]); ("n", VInt 3)].

Definition sample_wire_record : pydict :=
  [("id", VStr "rec1"); ("fields", VDict sample_wire_fields)].

Definition tagged_with_extra : value :=
  VDict [("specialValue", VStr "Infinity"); ("extra", VInt 1)].

Definition tagged_unknown : value :=
  VDict [("specialValue", VStr "foo")].

Definition nth_chunk {A : Type} (data : list A) (n k : nat) : list A :=
  firstn n (skipn (k * n) data).

Definition page_request (url : string) (headers params : pydict) : request :=
  mkRequest GET url headers params None.

Definition follow_up (url : string) (headers params : pydict) (r : response) : request :=
  page_request url headers (Dict.set params "offset" (page_offset (json r))).

Definition page_one : response :=
  mkResponse 200 (VDict [("records", VList [VInt 1; VInt 2]);
                         ("offset", VStr "itr1")]) "page 1".

Definition page_two : response :=
  mkResponse 200 (VDict [("records", VList [VInt 3])]) "page 2".

Definition page_empty_cursor : response :=
  mkResponse 200 (VDict [("records", VList [VInt 1]); ("offset", VStr "")])
             "page with an empty offset".

Definition wire_row (n : Z) : value := VDict [("fields", VDict [("n", VInt n)])].

Definition fifteen_rows : list value :=
  map wire_row [1; 2; 3; 4; 5; 6; 7; 8; 9; 10; 11; 12; 13; 14; 15]%Z.

Definition created_ten : response :=
  mkResponse 200 (VDict [("records", VList (firstn 10 fifteen_rows))])
             "ten records".

Definition unprocessable : response :=
  mkResponse 422 (VDict [("error", VDict [("type", VStr "INVALID_REQUEST");
                                          ("message", VStr "bad field")])])
             "bad field".

(** Requests added to the log, all with the same headers. *)
Definition logs_with (h : pydict) (before after : list request) : Prop :=
  exists new, after = before ++ new /\ Forall (fun rq => req_headers rq = h) new.

(** What every call keeps true once the header is in. *)
Definition header_installed (tok : string) (self : client) : Prop :=
  cache_configured self tok
  /\ Dict.get (__headers self) "X-Mw-Bearer" = Some (VStr tok).

Definition later_calls : list call :=
  [CallWrite "tbl" (VList fifteen_rows) None (Some false);
   CallGet "tbl" None None (Some false) true;
   CallDelete "tbl" ["rec1"; "rec2"] None].

Definition uid_row (n : Z) : pydict := [("uid", VInt n)].

Definition uid_row_with_id (n : Z) (i : string) : pydict :=
  [("uid", VInt n); ("at_record_id", VStr i)].

(* ================================================================== *)
(** ** Vocabulary of the further properties *)

(** A float that JSON cannot carry as a number. *)
Definition nonfinite (v : value) : bool :=
  match v with
  | VFloat f => isinf f || isnan f
  | _ => false
  end.

(** The ["fields"] dictionary of a wire record. *)
Definition record_fields (rec : value) : pydict :=
  match rec with
  | VDict r =>
      match Dict.get r "fields" with
      | Some (VDict fs) => fs
      | _ => []
      end
  | _ => []
  end.

(** A record [_process_records_from_at] can decode: a dictionary with
    a dictionary under ["fields"] and, when the identifier is kept, an
    ["id"]. *)
Definition decodable (keep_id : bool) (rec : value) : bool :=
  match rec with
  | VDict r =>
      match Dict.get r "fields" with
      | Some (VDict _) =>
          if keep_id
          then match Dict.get r "id" with Some _ => true | None => false end
          else true
      | _ => false
      end
  | _ => false
  end.

(** One of the three objects the service uses for a non-finite float. *)
Definition is_tag_object (d : pydict) : bool :=
  match d with
  | [(k, VStr tag)] =>
      String.eqb k "specialValue"
      && (String.eqb tag "Infinity" || String.eqb tag "-Infinity"
          || String.eqb tag "NaN")
  | _ => false
  end.

(** A field value as the service sends it: no raw non-finite float, and
    an object is either one of the three tag objects or carries no truthy
    ["specialValue"]; [None] only where [None] is kept. *)
Definition wire_value (keep_none : bool) (v : value) : bool :=
  match v with
  | VNone => keep_none
  | VFloat f => negb (isinf f || isnan f)
  | VDict d =>
      is_tag_object d || negb (truthy (Dict.get_default d "specialValue"))
  | _ => true
  end.

(** A service record with identifier [rid] and fields [fs]. *)
Definition service_record (rec : string * pydict) : value :=
  VDict [("id", VStr (fst rec)); ("fields", VDict (snd rec))].

(** The fields of a service record can be sent back as they are. *)
Definition returnable (self : client) (keep_none : bool) (rec : string * pydict) : Prop :=
  Dict.wf (snd rec)
  /\ ~ In (_at_rec_id self) (Dict.keys (snd rec))
  /\ forallb (fun kv => wire_value keep_none (snd kv)) (snd rec) = true.

(** The value a field is decoded to. *)
Definition decoded (v : value) : value :=
  match field_effect v with
  | Some w => w
  | None => v
  end.

Definition decode_item (kv : string * value) : string * value :=
  (fst kv, decoded (snd kv)).

(** The records a response contributes under a classifier. *)
Definition returned (classify : response -> outcome (list value))
    (r : response) : list value :=
  match classify r with
  | Ok recs => recs
  | Raise _ => []
  end.

(** The request [write] makes for a chunk. *)
Definition post_request (self : client) (base table : string)
    (chunk : list value) : request :=
  mkRequest POST (endpoint (_at_url self) base table) (__headers self) []
            (records_body chunk).

(** The request [update] makes for a chunk. *)
Definition patch_request (self : client) (base table : string)
    (chunk : list value) : request :=
  mkRequest PATCH (endpoint (_at_url self) base table) (__headers self) []
            (records_body chunk).

(** The request [delete] makes for a chunk of identifiers. *)
Definition delete_request (self : client) (base table : string)
    (chunk : list string) : request :=
  mkRequest DELETE (endpoint (_at_url self) base table) (__headers self)
            [("records[]", VList (map VStr chunk))] None.

(** A response [write], [update] and [delete] accept: status 200 and a
    body with a list of records. *)
Definition accepted (r : response) : bool :=
  (status_code r =? 200)%Z && negb (raised (body_records (json r))).

(** The records in the body of a response. *)
Definition response_records (r : response) : list value :=
  match body_records (json r) with
  | Ok recs => recs
  | Raise _ => []
  end.

Definition created_five : response :=
  mkResponse 200 (VDict [("records", VList (skipn 10 fifteen_rows))])
             "five records".

Definition one_record : response :=
  mkResponse 200 (VDict [("records", VList [VDict [("id", VStr "rec1")]])])
             "one record".

Definition row_with_id_inf : pydict :=
  [("at_record_id", VStr "rec1"); ("a", VFloat inf)].

Definition record_with_id_inf : value :=
  VDict [("id", VStr "rec1");
         ("fields", VDict [("a", VDict [("specialValue", VStr "Infinity")])])].

(** [get] goes through the cache: a token is configured and the call
    is not direct. *)
Definition uses_cache (self : client) (direct : bool) : bool :=
  match _cache_token self with
  | Some _ => negb direct
  | None => false
  end.

(** The ["view"] parameter [get] sends for its [view] argument. *)
Definition view_param (view : option string) : option value :=
  match view with
  | Some v => if truthy (VStr v) then Some (VStr v) else None
  | None => None
  end.

(** A request of the read loop: a body-less GET of [url] with
    [headers], whose parameters are [params] but for ["offset"]. *)
Definition page_request_of (url : string) (headers params : pydict)
    (rq : request) : Prop :=
  req_method rq = GET
  /\ req_url rq = url
  /\ req_headers rq = headers
  /\ req_data rq = None
  /\ forall k, k <> "offset" -> Dict.get (req_params rq) k = Dict.get params k.

(** The call does not go through the cache. *)
Definition stays_direct (self : client) (c : call) : bool :=
  match c with
  | CallGet _ _ _ _ direct => negb (uses_cache self direct)
  | _ => true
  end.

Definition server_error : response :=
  mkResponse 500 (VStr "Internal Server Error") "Internal Server Error".

(** The rows of [data_w_id] that agree with [rec] on [keys]. *)
Definition candidates (data_w_id : list pydict) (keys : list string)
    (rec : pydict) : outcome (list pydict) :=
  filter_rows (fun d => keys_agree d rec keys) data_w_id.

(** [rec] has exactly one candidate, and it carries an identifier. *)
Definition unique_match (self : client) (data_w_id : list pydict)
    (keys : list string) (rec : pydict) : bool :=
  match candidates data_w_id keys rec with
  | Ok [d] =>
      match Dict.get d (_at_rec_id self) with Some _ => true | None => false end
  | _ => false
  end.

(** [rec] with the identifier of its one candidate. *)
Definition attach_id (self : client) (data_w_id : list pydict)
    (keys : list string) (rec : pydict) : pydict :=
  match candidates data_w_id keys rec with
  | Ok [d] =>
      match Dict.get d (_at_rec_id self) with
      | Some v => Dict.set rec (_at_rec_id self) v
      | None => rec
      end
  | _ => rec
  end.

(* ================================================================== *)
(** * Properties *)

(** ** Dictionaries *)

Section DictFacts.

Lemma get_set_same (d : pydict) (k : string) (v : value) :
  Dict.get (Dict.set d k v) k = Some v.
Proof.
  induction d as [|[k' v'] d IH]; simpl.
  - now rewrite String.eqb_refl.
  - destruct (String.eqb k' k) eqn:E; simpl; rewrite E; auto.
Qed.

Lemma get_set_other (d : pydict) (k k' : string) (v : value) :
  k <> k' -> Dict.get (Dict.set d k v) k' = Dict.get d k'.
Proof.
  intros Hne. induction d as [|[k0 v0] d IH]; simpl.
  - destruct (String.eqb k k') eqn:E; auto.
    apply String.eqb_eq in E. contradiction.
  - destruct (String.eqb k0 k) eqn:E; simpl.
    + apply String.eqb_eq in E. subst k0.
      destruct (String.eqb k k') eqn:E'; auto.
      apply String.eqb_eq in E'. contradiction.
    + now rewrite IH.
Qed.

Lemma get_None_notin (d : pydict) (k : string) :
  Dict.get d k = None <-> ~ In k (Dict.keys d).
Proof.
  induction d as [|[k' v'] d IH]; simpl.
  - tauto.
  - destruct (String.eqb k' k) eqn:E.
    + apply String.eqb_eq in E. split; [discriminate | tauto].
    + apply String.eqb_neq in E. rewrite IH. tauto.
Qed.

Lemma get_In (d : pydict) (k : string) (v : value) :
  Dict.wf d -> In (k, v) d -> Dict.get d k = Some v.
Proof.
  unfold Dict.wf. induction d as [|[k' v'] d IH]; simpl; intros Hnd Hin.
  - contradiction.
  - inversion Hnd as [|? ? Hnotin Hnd']; subst.
    destruct Hin as [Heq | Hin].
    + inversion Heq; subst. now rewrite String.eqb_refl.
    + destruct (String.eqb k' k) eqn:E.
      * apply String.eqb_eq in E. subst k'.
        exfalso. apply Hnotin. change k with (fst (k, v)).
        now apply in_map.
      * auto.
Qed.

Lemma get_Some_In (d : pydict) (k : string) (v : value) :
  Dict.get d k = Some v -> In (k, v) d.
Proof.
  induction d as [|[k' v'] d IH]; simpl; intros H.
  - discriminate.
  - destruct (String.eqb k' k) eqn:E.
    + apply String.eqb_eq in E. inversion H; subst. now left.
    + right. auto.
Qed.

(** Assigning to a key that is absent appends the item. *)
Lemma set_fresh (d : pydict) (k : string) (v : value) :
  ~ In k (Dict.keys d) -> Dict.set d k v = d ++ [(k, v)].
Proof.
  induction d as [|[k' v'] d IH]; simpl; intros Hn.
  - reflexivity.
  - destruct (String.eqb k' k) eqn:E.
    + apply String.eqb_eq in E. tauto.
    + rewrite IH; tauto.
Qed.

(** Assigning to a key that is present rewrites its item in place. *)
Lemma set_middle (pre post : pydict) (k : string) (v v' : value) :
  ~ In k (Dict.keys pre) ->
  Dict.set (pre ++ (k, v) :: post) k v' = pre ++ (k, v') :: post.
Proof.
  induction pre as [|[k0 v0] pre IH]; simpl; intros Hn.
  - now rewrite String.eqb_refl.
  - destruct (String.eqb k0 k) eqn:E.
    + apply String.eqb_eq in E. tauto.
    + rewrite IH; tauto.
Qed.

Lemma set_set (d : pydict) (k : string) (v v' : value) :
  Dict.set (Dict.set d k v) k v' = Dict.set d k v'.
Proof.
  induction d as [|[k0 v0] d IH]; simpl.
  - now rewrite String.eqb_refl.
  - destruct (String.eqb k0 k) eqn:E; simpl; rewrite E; congruence.
Qed.

Lemma keys_app (d e : pydict) :
  Dict.keys (d ++ e) = Dict.keys d ++ Dict.keys e.
Proof. apply map_app. Qed.

Lemma get_filter_value (p : value -> bool) (d : pydict) (k : string) :
  Dict.wf d ->
  Dict.get (filter (fun kv => p (snd kv)) d) k =
  match Dict.get d k with
  | Some v => if p v then Some v else None
  | None => None
  end.
Proof.
  unfold Dict.wf. induction d as [|[k' v'] d IH]; simpl; intros Hnd; auto.
  inversion Hnd as [|? ? Hnotin Hnd']; subst.
  destruct (String.eqb k' k) eqn:E.
  - apply String.eqb_eq in E. subst k'.
    destruct (p v') eqn:Hp; simpl.
    + now rewrite String.eqb_refl.
    + rewrite IH by assumption.
      apply get_None_notin in Hnotin. now rewrite Hnotin.
  - destruct (p v'); simpl; rewrite ?E; auto.
Qed.

Lemma get_filter_key (k0 : string) (d : pydict) (k : string) :
  k <> k0 ->
  Dict.get (filter (fun kv => negb (String.eqb (fst kv) k0)) d) k = Dict.get d k.
Proof.
  intros Hne. induction d as [|[k' v'] d IH]; simpl; auto.
  destruct (String.eqb k' k0) eqn:E0; simpl.
  - apply String.eqb_eq in E0. subst k'.
    destruct (String.eqb k0 k) eqn:E; auto.
    apply String.eqb_eq in E. congruence.
  - destruct (String.eqb k' k); auto.
Qed.

Lemma wf_filter (p : string * value -> bool) (d : pydict) :
  Dict.wf d -> Dict.wf (filter p d).
Proof.
  unfold Dict.wf. induction d as [|[k v] d IH]; simpl; intros Hnd; auto.
  inversion Hnd as [|? ? Hnotin Hnd']; subst.
  destruct (p (k, v)); simpl; auto.
  constructor; auto.
  intros Hin. apply Hnotin. unfold Dict.keys in *.
  apply in_map_iff in Hin. destruct Hin as [[k1 v1] [Hk Hin]].
  apply filter_In in Hin. apply in_map_iff. exists (k1, v1). tauto.
Qed.

End DictFacts.

(** ** Transcoding to the wire *)

Section ForAt.

Variable self : client.

Lemma keys_encode (d : pydict) : Dict.keys (map encode_item d) = Dict.keys d.
Proof. unfold Dict.keys. rewrite map_map. reflexivity. Qed.

Lemma get_encode (d : pydict) (k : string) :
  Dict.get (map encode_item d) k = option_map encoded (Dict.get d k).
Proof.
  induction d as [|[k' v'] d IH]; simpl; auto.
  destruct (String.eqb k' k); auto.
Qed.

(** Step 2 rewrites the items one after the other in the dictionary it
    walks; on a dictionary this is a map over the items. *)
Lemma for_at_fold (items pre : pydict) :
  Dict.wf (pre ++ items) ->
  fold_left for_at_field items (pre ++ items) = pre ++ map encode_item items.
Proof.
  revert pre. induction items as [|[k v] items IH]; intros pre Hwf; simpl.
  - reflexivity.
  - assert (Hk : ~ In k (Dict.keys pre)).
    { unfold Dict.wf in Hwf. rewrite keys_app in Hwf. simpl in Hwf.
      apply NoDup_remove_2 in Hwf. intros Hin. apply Hwf.
      apply in_or_app. now left. }
    assert (Hstep : for_at_field (pre ++ (k, v) :: items) (k, v)
                    = (pre ++ [(k, encoded v)]) ++ items).
    { unfold for_at_field, encoded. simpl.
      destruct (special_label v) as [tag|].
      - rewrite set_middle by assumption. now rewrite <- app_assoc.
      - now rewrite <- app_assoc. }
    rewrite Hstep, IH.
    + unfold encode_item at 2. simpl. now rewrite <- app_assoc.
    + unfold Dict.wf in *. rewrite !keys_app in *. simpl in *.
      now rewrite <- app_assoc.
Qed.

Lemma for_at_step2 (d : pydict) :
  Dict.wf d -> fold_left for_at_field d d = map encode_item d.
Proof. intros Hwf. apply (for_at_fold d []). exact Hwf. Qed.

Lemma keys_set_present (d : pydict) (k : string) (v : value) :
  In k (Dict.keys d) -> Dict.keys (Dict.set d k v) = Dict.keys d.
Proof.
  induction d as [|[k' v'] d IH]; simpl; intros Hin.
  - contradiction.
  - destruct (String.eqb k' k) eqn:E; simpl; auto.
    apply String.eqb_neq in E. f_equal. apply IH. tauto.
Qed.

(** Whatever the items, step 2 never changes the key set. *)
Lemma for_at_fold_keys (items acc : pydict) :
  incl (Dict.keys items) (Dict.keys acc) ->
  Dict.keys (fold_left for_at_field items acc) = Dict.keys acc.
Proof.
  revert acc. induction items as [|[k v] items IH]; intros acc Hincl; simpl.
  - reflexivity.
  - assert (Hk : Dict.keys (for_at_field acc (k, v)) = Dict.keys acc).
    { unfold for_at_field. simpl. destruct (special_label v); auto.
      apply keys_set_present. apply Hincl. now left. }
    rewrite IH; rewrite Hk; auto.
    intros x Hx. apply Hincl. now right.
Qed.

Lemma for_at_row_new (keep_none : bool) (row : pydict) :
  for_at_row self keep_none true (VDict row) =
  Ok (VDict [("fields",
              VDict (fold_left for_at_field (resolve_none keep_none row)
                               (resolve_none keep_none row)))]).
Proof. reflexivity. Qed.

Lemma for_at_row_update (keep_none : bool) (row : pydict) :
  for_at_row self keep_none false (VDict row) =
  let newrow := fold_left for_at_field (resolve_none keep_none row)
                          (resolve_none keep_none row) in
  match Dict.get newrow (_at_rec_id self) with
  | Some i => Ok (VDict [("id", i); ("fields", VDict (without_id self newrow))])
  | None => Raise (KeyError (_at_rec_id self))
  end.
Proof.
  unfold for_at_row, resolve_none, subscript, without_id. simpl.
  destruct keep_none; simpl;
    match goal with |- context [Dict.get ?d ?k] => destruct (Dict.get d k) end;
    reflexivity.
Qed.

Lemma wf_resolve_none (keep_none : bool) (row : pydict) :
  Dict.wf row -> Dict.wf (resolve_none keep_none row).
Proof.
  intros Hwf. unfold resolve_none. destruct keep_none; auto.
  now apply wf_filter.
Qed.

Lemma get_resolve_none (keep_none : bool) (row : pydict) (k : string) :
  Dict.wf row ->
  Dict.get (resolve_none keep_none row) k =
  match Dict.get row k with
  | Some v => if is_None v && negb keep_none then None else Some v
  | None => None
  end.
Proof.
  intros Hwf. unfold resolve_none. destruct keep_none.
  - destruct (Dict.get row k) as [v|]; auto.
    now rewrite andb_false_r.
  - rewrite (get_filter_value (fun v => negb (is_None v))) by assumption.
    destruct (Dict.get row k) as [v|]; auto.
    rewrite andb_true_r. now destruct (is_None v).
Qed.

Lemma resolve_none_incl (keep_none : bool) (row : pydict) :
  incl (Dict.keys (resolve_none keep_none row)) (Dict.keys row).
Proof.
  unfold resolve_none. destruct keep_none.
  - apply incl_refl.
  - intros k Hin. unfold Dict.keys in *.
    apply in_map_iff in Hin. destruct Hin as [kv [Hk Hin]].
    apply filter_In in Hin. apply in_map_iff. exists kv. tauto.
Qed.

End ForAt.

(** ** C7: null handling *)

(** C7.  For every row, [_process_records_for_at] builds a field
    dictionary in which, with [keep_none = False], exactly the entries
    whose value is [None] are gone and, with [keep_none = True], they
    are kept with the value [None]; every other entry is kept (a
    non-finite float in its tagged form).  In new-record mode that
    dictionary is sent as ["fields"]; in update mode the identifier
    entry is moved out of it into ["id"]. *)
Theorem for_at_null_handling (self : client) (row : pydict) (keep_none : bool) :
  Dict.wf row ->
  exists fields : pydict,
    _process_records_for_at self [VDict row] keep_none true
      = Ok (VList [VDict [("fields", VDict fields)]])
    /\ (forall k, Dict.get fields k = kept_entry keep_none (Dict.get row k))
    /\ (forall k, Dict.get row k = Some VNone ->
                  Dict.get fields k = if keep_none then Some VNone else None)
    /\ (forall k v, Dict.get row k = Some v -> v <> VNone ->
                    Dict.get fields k <> None)
    /\ (forall i, Dict.get fields (_at_rec_id self) = Some i ->
          _process_records_for_at self [VDict row] keep_none false
            = Ok (VDict [("records",
                          VList [VDict [("id", i);
                                        ("fields", VDict (without_id self fields))]])])).
Proof.
  intros Hwf.
  exists (map encode_item (resolve_none keep_none row)).
  assert (Hget : forall k,
             Dict.get (map encode_item (resolve_none keep_none row)) k
             = kept_entry keep_none (Dict.get row k)).
  { intros k. rewrite get_encode, get_resolve_none by assumption.
    destruct (Dict.get row k) as [v|]; simpl; auto.
    destruct v; destruct keep_none; reflexivity. }
  split; [|split; [|split; [|split]]].
  - unfold _process_records_for_at. cbn [for_each]. rewrite for_at_row_new.
    rewrite for_at_step2 by (now apply wf_resolve_none). reflexivity.
  - exact Hget.
  - intros k Hk. rewrite Hget, Hk. reflexivity.
  - intros k v Hk Hv. rewrite Hget, Hk.
    destruct v; simpl; try discriminate. congruence.
  - intros i Hi. unfold _process_records_for_at. cbn [for_each].
    rewrite for_at_row_update. cbv zeta.
    rewrite for_at_step2 by (now apply wf_resolve_none).
    rewrite Hi. reflexivity.
Qed.

Lemma wf_row_a1_bnull : Dict.wf row_a1_bnull.
Proof.
  unfold Dict.wf. simpl. repeat constructor; simpl; intuition discriminate.
Defined.

(** The spec's example: [{"a": 1, "b": None}] loses ["b"] with
    [keep_none = False] and keeps it as [None] with [keep_none = True]. *)
Lemma for_at_null_handling_witness :
  (exists fields,
      _process_records_for_at (__init__ "key" true None None None)
                              [VDict row_a1_bnull] false true
        = Ok (VList [VDict [("fields", VDict fields)]])
      /\ Dict.get fields "a" = Some (VInt 1)
      /\ Dict.get fields "b" = None)
  /\ (exists fields,
      _process_records_for_at (__init__ "key" true None None None)
                              [VDict row_a1_bnull] true true
        = Ok (VList [VDict [("fields", VDict fields)]])
      /\ Dict.get fields "a" = Some (VInt 1)
      /\ Dict.get fields "b" = Some VNone).
Proof.
  split.
  - destruct (for_at_null_handling (__init__ "key" true None None None)
                row_a1_bnull false wf_row_a1_bnull)
      as [fields [Hrun [Hget _]]].
    exists fields. split; [exact Hrun|].
    split; rewrite Hget; reflexivity.
  - destruct (for_at_null_handling (__init__ "key" true None None None)
                row_a1_bnull true wf_row_a1_bnull)
      as [fields [Hrun [Hget _]]].
    exists fields. split; [exact Hrun|].
    split; rewrite Hget; reflexivity.
Defined.

(** ** C9: update mode needs the identifier *)

Lemma for_at_row_update_error (self : client) (keep_none : bool) (row : pydict) (e : exn) :
  for_at_row self keep_none false (VDict row) = Raise e ->
  e = KeyError (_at_rec_id self).
Proof.
  rewrite for_at_row_update. cbv zeta.
  match goal with |- context [Dict.get ?d ?k] => destruct (Dict.get d k) end;
    intros H; inversion H; reflexivity.
Qed.

Lemma for_at_row_update_missing (self : client) (keep_none : bool) (row : pydict) :
  Dict.get row (_at_rec_id self) = None ->
  for_at_row self keep_none false (VDict row) = Raise (KeyError (_at_rec_id self)).
Proof.
  intros Hmiss. rewrite for_at_row_update. cbv zeta.
  match goal with |- context [Dict.get ?d ?k] => destruct (Dict.get d k) eqn:E end;
    auto.
  exfalso.
  assert (Hin : In (_at_rec_id self)
                   (Dict.keys (fold_left for_at_field (resolve_none keep_none row)
                                         (resolve_none keep_none row)))).
  { apply get_Some_In in E. unfold Dict.keys.
    change (_at_rec_id self) with (fst (_at_rec_id self, v)). now apply in_map. }
  rewrite for_at_fold_keys in Hin by apply incl_refl.
  apply resolve_none_incl in Hin.
  apply get_None_notin in Hmiss. contradiction.
Qed.

(** C9.  In update mode ([new = False]), a row without the reserved
    identifier key makes the whole call raise [KeyError] on that key:
    no row is skipped and no identifier is made up. *)
Theorem for_at_update_requires_id (self : client) (rows : list pydict)
    (keep_none : bool) (row : pydict) :
  In row rows ->
  Dict.get row (_at_rec_id self) = None ->
  _process_records_for_at self (map VDict rows) keep_none false
    = Raise (KeyError (_at_rec_id self)).
Proof.
  intros Hin Hmiss. unfold _process_records_for_at.
  assert (Hloop : for_each (for_at_row self keep_none false) (map VDict rows)
                  = Raise (KeyError (_at_rec_id self))).
  { induction rows as [|r rows IH]; cbn [map for_each].
    - contradiction.
    - destruct (for_at_row self keep_none false (VDict r)) as [out|e] eqn:Er.
      + destruct Hin as [Heq | Hin].
        * subst r. rewrite for_at_row_update_missing in Er by assumption.
          discriminate.
        * cbn [bind]. rewrite IH by assumption. reflexivity.
      + cbn [bind]. apply for_at_row_update_error in Er. now subst e. }
  rewrite Hloop. reflexivity.
Qed.

Lemma for_at_update_requires_id_witness :
  _process_records_for_at (__init__ "key" true None None None)
    (map VDict [[("at_record_id", VStr "rec1"); ("a", VInt 1)]; row_a1_bnull])
    true false
  = Raise (KeyError "at_record_id").
Proof.
  apply (for_at_update_requires_id (__init__ "key" true None None None)
           [[("at_record_id", VStr "rec1"); ("a", VInt 1)]; row_a1_bnull]
           true row_a1_bnull).
  - simpl. right. left. reflexivity.
  - reflexivity.
Defined.

(** ** Transcoding from the wire *)

Section FromAt.

Lemma from_at_field_effect (acc : pydict) (k : string) (v : value) :
  from_at_field acc (k, v) =
  match field_effect v with
  | Some w => Dict.set acc k w
  | None => acc
  end.
Proof.
  unfold from_at_field, field_effect.
  destruct v; try reflexivity.
  destruct (truthy (Dict.get_default d "specialValue")); try reflexivity.
  destruct (py_eq (Dict.get_default d "specialValue") (VStr "Infinity"));
    try reflexivity.
  destruct (py_eq (Dict.get_default d "specialValue") (VStr "-Infinity"));
    try reflexivity.
  destruct (py_eq (Dict.get_default d "specialValue") (VStr "NaN"));
    reflexivity.
Qed.

Lemma from_at_fold_other (fs acc : pydict) (k : string) :
  ~ In k (Dict.keys fs) ->
  Dict.get (fold_left from_at_field fs acc) k = Dict.get acc k.
Proof.
  revert acc. induction fs as [|[k' v'] fs IH]; intros acc Hn; cbn [fold_left].
  - reflexivity.
  - simpl in Hn. rewrite IH by tauto.
    rewrite from_at_field_effect.
    destruct (field_effect v'); auto.
    apply get_set_other. tauto.
Qed.

Lemma from_at_fold_in (fs acc : pydict) (k : string) (v w : value) :
  Dict.wf fs -> In (k, v) fs -> field_effect v = Some w ->
  Dict.get (fold_left from_at_field fs acc) k = Some w.
Proof.
  unfold Dict.wf. revert acc.
  induction fs as [|[k' v'] fs IH]; intros acc Hwf Hin Heff;
    cbn [fold_left]; simpl in Hwf, Hin.
  - contradiction.
  - inversion Hwf as [|? ? Hnotin Hwf']; subst.
    destruct Hin as [Heq | Hin].
    + inversion Heq; subst.
      rewrite from_at_fold_other by assumption.
      rewrite from_at_field_effect, Heff. apply get_set_same.
    + now apply IH.
Qed.

Lemma tagged_infinity (v : value) :
  tagged v "Infinity" -> field_effect v = Some (VFloat inf).
Proof.
  intros [d [-> Hd]]. unfold field_effect, Dict.get_default.
  rewrite Hd. reflexivity.
Qed.

Lemma tagged_neg_infinity (v : value) :
  tagged v "-Infinity" -> field_effect v = Some (VFloat neg_inf).
Proof.
  intros [d [-> Hd]]. unfold field_effect, Dict.get_default.
  rewrite Hd. reflexivity.
Qed.

Lemma tagged_nan (v : value) :
  tagged v "NaN" -> field_effect v = Some (VFloat nan).
Proof.
  intros [d [-> Hd]]. unfold field_effect, Dict.get_default.
  rewrite Hd. reflexivity.
Qed.

Lemma untagged_effect (v : value) : untagged v -> field_effect v = Some v.
Proof.
  destruct v; simpl; auto. intros ->. reflexivity.
Qed.

(** A scalar that went through step 2 of the encoder comes back as
    itself. *)
Lemma decode_encoded (v : value) :
  is_scalar v = true -> field_effect (encoded v) = Some v.
Proof.
  destruct v; simpl; try discriminate; intros _; try reflexivity.
  unfold encoded, special_label.
  destruct f as [s|s| |s m e]; try reflexivity.
  destruct s; reflexivity.
Qed.

Lemma from_at_fold_encoded (items acc : pydict) :
  NoDup (Dict.keys acc ++ Dict.keys items) ->
  Forall (fun kv => is_scalar (snd kv) = true) items ->
  fold_left from_at_field (map encode_item items) acc = acc ++ items.
Proof.
  revert acc. induction items as [|[k v] items IH]; intros acc Hnd Hsc;
    cbn [map fold_left].
  - now rewrite app_nil_r.
  - inversion Hsc as [|? ? Hv Hsc']; subst. simpl in Hv.
    change (encode_item (k, v)) with (k, encoded v).
    rewrite from_at_field_effect, decode_encoded by assumption.
    simpl in Hnd.
    rewrite set_fresh.
    + rewrite IH; auto.
      * now rewrite <- app_assoc.
      * rewrite keys_app. simpl. now rewrite <- app_assoc.
    + apply NoDup_remove_2 in Hnd. intros Hin. apply Hnd.
      apply in_or_app. now left.
Qed.

End FromAt.

(** ** C1: round trip of new records *)

Lemma subscript_head (k : string) (v : value) (d : pydict) :
  subscript ((k, v) :: d) k = Ok v.
Proof. unfold subscript. simpl. now rewrite String.eqb_refl. Qed.

Lemma resolve_none_sendable (row : pydict) :
  forallb sendable row = true -> resolve_none false row = row.
Proof.
  unfold resolve_none. induction row as [|[k v] row IH]; simpl; auto.
  intros H. apply andb_prop in H. destruct H as [Hs Hrest].
  unfold sendable in Hs. simpl in Hs. apply andb_prop in Hs.
  destruct Hs as [_ Hnn]. rewrite Hnn. f_equal. auto.
Qed.

Lemma sendable_scalar (row : pydict) :
  forallb sendable row = true ->
  Forall (fun kv => is_scalar (snd kv) = true) row.
Proof.
  intros H. apply Forall_forall. intros kv Hin.
  rewrite forallb_forall in H. specialize (H kv Hin).
  unfold sendable in H. apply andb_prop in H. tauto.
Qed.

(** C1 (as amended).  For flat rows whose values are scalars other than
    [None], encoding in new-record mode with the default
    [keep_none = False] and decoding with [keep_id = False] gives the
    rows back, item for item; NaN comes back as NaN. *)
Theorem roundtrip_new_records (self : client) (R : list pydict) :
  Forall Dict.wf R ->
  Forall (fun row => forallb sendable row = true) R ->
  exists W : list value,
    _process_records_for_at self (map VDict R) false true = Ok (VList W)
    /\ _process_records_from_at self W false = Ok R.
Proof.
  intros Hwf Hsend.
  exists (map (fun row => VDict [("fields", VDict (map encode_item row))]) R).
  unfold _process_records_for_at, _process_records_from_at.
  induction R as [|row R IH]; cbn [map for_each].
  - split; reflexivity.
  - inversion Hwf as [|? ? Hrow Hwf']; subst.
    inversion Hsend as [|? ? Hs Hsend']; subst.
    destruct (IH Hwf' Hsend') as [IH1 IH2]. clear IH.
    rewrite for_at_row_new, (resolve_none_sendable row Hs).
    rewrite for_at_step2 by assumption.
    cbn [bind] in *.
    destruct (for_each (for_at_row self false true) (map VDict R)) as [out|e];
      [|discriminate].
    cbn [bind] in *. inversion IH1; subst. split; [reflexivity|].
    unfold from_at_row at 1. rewrite subscript_head. cbn [bind].
    rewrite (from_at_fold_encoded row []).
    + rewrite IH2. reflexivity.
    + exact Hrow.
    + now apply sendable_scalar.
Qed.

Lemma roundtrip_new_records_witness :
  exists W : list value,
    _process_records_for_at sample_client (map VDict sample_rows) false true
      = Ok (VList W)
    /\ _process_records_from_at sample_client W false = Ok sample_rows.
Proof.
  apply (roundtrip_new_records sample_client sample_rows).
  - unfold sample_rows, Dict.wf. simpl.
    repeat constructor; simpl; intuition discriminate.
  - repeat constructor.
Defined.

(** C1 as stated fails on a row holding [None]: the default
    [keep_none = False] drops the entry before it is sent, so decoding
    with [keep_id = False] gives an empty row; and decoding with the
    default [keep_id = True] raises, because a new record carries no
    ["id"]. *)
Lemma roundtrip_counterexample :
  _process_records_for_at sample_client [VDict row_a_null] false true
    = Ok (VList [VDict [("fields", VDict [])]])
  /\ _process_records_from_at sample_client [VDict [("fields", VDict [])]] true
     = Raise (KeyError "id")
  /\ _process_records_from_at sample_client [VDict [("fields", VDict [])]] false
     = Ok [[]]
  /\ map (without_id sample_client) [[]]
     <> map (without_id sample_client) [row_a_null].
Proof.
  repeat split; try reflexivity. discriminate.
Qed.

(** ** C2: decoding a field *)

(** C2 (as amended).  In a wire record whose ["fields"] is a dictionary,
    a field whose value is an object with ["specialValue"] equal to
    ["Infinity"], ["-Infinity"] or ["NaN"] (whatever else the object
    holds) is decoded to that float, and a field whose value is a
    scalar, an array, or an object whose ["specialValue"] is absent or
    falsy is kept with its value. *)
Theorem from_at_decode (self : client) (keep_id : bool) (r fs : pydict)
    (k : string) (v : value) :
  (keep_id = true -> Dict.get r "id" <> None) ->
  Dict.get r "fields" = Some (VDict fs) ->
  Dict.wf fs ->
  In (k, v) fs ->
  exists out : pydict,
    _process_records_from_at self [VDict r] keep_id = Ok [out]
    /\ (tagged v "Infinity" -> Dict.get out k = Some (VFloat inf))
    /\ (tagged v "-Infinity" -> Dict.get out k = Some (VFloat neg_inf))
    /\ (tagged v "NaN" -> Dict.get out k = Some (VFloat nan))
    /\ (untagged v -> Dict.get out k = Some v).
Proof.
  intros Hid Hfields Hwf Hin.
  set (newrow := if keep_id
                 then [(_at_rec_id self, Dict.get_default r "id")]
                 else @nil (string * value)).
  exists (fold_left from_at_field fs newrow).
  split.
  - unfold _process_records_from_at. cbn [for_each]. unfold from_at_row.
    unfold subscript at 2. rewrite Hfields. subst newrow.
    destruct keep_id.
    + unfold subscript, Dict.get_default.
      destruct (Dict.get r "id") as [i|]; [reflexivity|].
      exfalso. now apply Hid.
    + reflexivity.
  - repeat split; intros Hv;
      apply (from_at_fold_in fs newrow k v); auto.
    + now apply tagged_infinity.
    + now apply tagged_neg_infinity.
    + now apply tagged_nan.
    + now apply untagged_effect.
Qed.

Lemma from_at_decode_witness :
  exists out : pydict,
    _process_records_from_at sample_client [VDict sample_wire_record] true = Ok [out]
    /\ (tagged (VInt 3) "Infinity" -> Dict.get out "n" = Some (VFloat inf))
    /\ (tagged (VInt 3) "-Infinity" -> Dict.get out "n" = Some (VFloat neg_inf))
    /\ (tagged (VInt 3) "NaN" -> Dict.get out "n" = Some (VFloat nan))
    /\ (untagged (VInt 3) -> Dict.get out "n" = Some (VInt 3)).
Proof.
  apply (from_at_decode sample_client true sample_wire_record sample_wire_fields
           "n" (VInt 3)).
  - intros _. simpl. discriminate.
  - reflexivity.
  - unfold Dict.wf. simpl. repeat constructor; simpl; intuition discriminate.
  - simpl. right. left. reflexivity.
Defined.

(** C2 as stated fails on objects that are not exactly a recognised
    tag: one with a second key is decoded all the same, and one whose
    tag is an unknown non-empty string is left out of the row. *)
Lemma from_at_decode_counterexample :
  _process_records_from_at sample_client
    [VDict [("id", VStr "rec1");
            ("fields", VDict [("x", tagged_with_extra); ("y", tagged_unknown)])]]
    true
  = Ok [[("at_record_id", VStr "rec1"); ("x", VFloat inf)]]
  /\ Dict.get [("at_record_id", VStr "rec1"); ("x", VFloat inf)] "x"
     <> Some tagged_with_extra
  /\ Dict.get [("at_record_id", VStr "rec1"); ("x", VFloat inf)] "y" = None.
Proof.
  repeat split; try reflexivity. discriminate.
Qed.

(** ** C3: chunking *)

Section Chunks.

Context {A : Type}.

Lemma firstn_plus (a b : nat) (l : list A) :
  firstn (a + b) l = firstn a l ++ firstn b (skipn a l).
Proof.
  revert l. induction a as [|a IH]; intros l; simpl.
  - reflexivity.
  - destruct l as [|x l]; simpl.
    + now rewrite firstn_nil.
    + now rewrite IH.
Qed.

Lemma chunks_as_map (data : list A) (n : nat) :
  chunks data n =
  map (nth_chunk data n)
      (seq 0 (if Nat.eqb (List.length data) 0 then 0
              else (List.length data - 1) / n + 1)).
Proof.
  unfold chunks, range0, slice, nth_chunk. rewrite map_map.
  apply map_ext. intros k. f_equal. lia.
Qed.

Lemma concat_nth_chunks (data : list A) (n m : nat) :
  List.concat (map (nth_chunk data n) (seq 0 m)) = firstn (m * n) data.
Proof.
  induction m as [|m IH].
  - reflexivity.
  - rewrite seq_S, map_app, List.concat_app, IH. simpl.
    rewrite app_nil_r. unfold nth_chunk.
    rewrite <- firstn_plus. f_equal. lia.
Qed.

Lemma chunk_count_covers (len n : nat) :
  0 < n -> len <> 0 -> len <= ((len - 1) / n + 1) * n.
Proof.
  intros Hn Hlen.
  pose proof (Nat.div_mod_eq (len - 1) n) as Hdm.
  pose proof (Nat.mod_upper_bound (len - 1) n) as Hmod.
  nia.
Qed.

Lemma concat_chunks (data : list A) (n : nat) :
  0 < n -> List.concat (chunks data n) = data.
Proof.
  intros Hn. rewrite chunks_as_map, concat_nth_chunks.
  destruct (Nat.eqb (List.length data) 0) eqn:E.
  - apply Nat.eqb_eq in E. destruct data; [reflexivity | discriminate].
  - apply Nat.eqb_neq in E. apply firstn_all2.
    now apply chunk_count_covers.
Qed.

Lemma full_chunks (data : list A) (n : nat) :
  0 < n ->
  Forall (fun c => List.length c = n) (removelast (chunks data n)).
Proof.
  intros Hn. rewrite chunks_as_map.
  destruct (Nat.eqb (List.length data) 0) eqn:E.
  - simpl. constructor.
  - apply Nat.eqb_neq in E.
    replace ((List.length data - 1) / n + 1) with (S ((List.length data - 1) / n)) by lia.
    rewrite seq_S, map_app. simpl. rewrite removelast_last.
    apply Forall_forall. intros c Hc.
    apply in_map_iff in Hc. destruct Hc as [k [<- Hk]].
    apply in_seq in Hk. unfold nth_chunk.
    rewrite length_firstn, length_skipn.
    pose proof (Nat.div_mod_eq (List.length data - 1) n) as Hdm.
    pose proof (Nat.mod_upper_bound (List.length data - 1) n) as Hmod.
    nia.
Qed.

Lemma length_nth_chunk (data : list A) (n k : nat) :
  List.length (nth_chunk data n k) = Nat.min n (List.length data - k * n).
Proof. unfold nth_chunk. now rewrite length_firstn, length_skipn. Qed.

(** No chunk is empty and none is longer than [n]: the last one too. *)
Lemma chunk_sizes (data : list A) (n : nat) :
  0 < n ->
  Forall (fun c => 1 <= List.length c <= n) (chunks data n).
Proof.
  intros Hn. rewrite chunks_as_map.
  destruct (Nat.eqb (List.length data) 0) eqn:E.
  - constructor.
  - apply Nat.eqb_neq in E.
    pose proof (Nat.div_mod_eq (List.length data - 1) n) as Hdm.
    pose proof (Nat.mod_upper_bound (List.length data - 1) n) as Hmod.
    apply Forall_forall. intros c Hc.
    apply in_map_iff in Hc. destruct Hc as [k [<- Hk]].
    apply in_seq in Hk. rewrite length_nth_chunk. nia.
Qed.

(** [len(range(0, len, n))]: the ceiling of [len / n]. *)
Lemma chunk_count (data : list A) (n : nat) :
  0 < n ->
  List.length (chunks data n) = (List.length data + (n - 1)) / n.
Proof.
  intros Hn. rewrite chunks_as_map, length_map, length_seq.
  destruct (Nat.eqb (List.length data) 0) eqn:E.
  - apply Nat.eqb_eq in E. rewrite E. simpl.
    symmetry. apply Nat.div_small. lia.
  - apply Nat.eqb_neq in E.
    replace (List.length data + (n - 1))
      with ((List.length data - 1) + 1 * n) by lia.
    rewrite Nat.div_add by lia. reflexivity.
Qed.

End Chunks.

(** C3.  With the batch size [n = 10] of [write], [update] and
    [delete], the chunks of a sequence partition it: concatenated in
    order they are the sequence; every chunk but the last has exactly
    ten items; the last one, like every chunk, has at least one item and
    at most ten, so that a sequence of [len] items is cut into
    [ceil(len / 10)] chunks; and the empty sequence has no chunk. *)
Theorem chunks_partition (A : Type) (S : list A) :
  List.concat (chunks S n_limit) = S
  /\ Forall (fun c => List.length c = n_limit) (removelast (chunks S n_limit))
  /\ Forall (fun c => 1 <= List.length c <= n_limit) (chunks S n_limit)
  /\ List.length (chunks S n_limit) = (List.length S + 9) / 10
  /\ chunks (@nil A) n_limit = [].
Proof.
  assert (Hn : 0 < n_limit) by (unfold n_limit; lia).
  repeat split.
  - now apply concat_chunks.
  - now apply full_chunks.
  - now apply chunk_sizes.
  - now apply (chunk_count S n_limit).
Qed.

(** ** C4: pagination *)

Section Pagination.

Variables (url : string) (headers : pydict).

Lemma good_page_inv (r : response) :
  good_page r = true ->
  negb (status_code r =? 200)%Z = false
  /\ page_records (json r) = Ok (page_items r).
Proof.
  unfold good_page, page_items. intros H.
  apply andb_prop in H. destruct H as [Hs Hr].
  rewrite Hs. split; [reflexivity|].
  destruct (page_records (json r)); [reflexivity | discriminate].
Qed.

(** The loop once a cursor is in hand. *)
Lemma get_pages_from_cursor (pages : list response) :
  forall (last : response) (rest : list response) (log : list request)
         (params : pydict) (offset : value) (records : list value),
    truthy offset = true -> is_True offset = false ->
    forallb good_page (pages ++ [last]) = true ->
    forallb has_cursor pages = true ->
    ends_stream last = true ->
    get_pages (pages ++ last :: rest) log url headers params offset records
    = (Ok (records ++ List.concat (map page_items (pages ++ [last]))),
       mkSession rest
         (log ++ page_request url headers (Dict.set params "offset" offset)
              :: map (follow_up url headers params) pages)).
Proof.
  induction pages as [|p pages IH];
    intros last rest log params offset records Ht HT Hgood Hcur Hend.
  - simpl in Hgood. rewrite andb_true_r in Hgood.
    destruct (good_page_inv last Hgood) as [Hs Hr].
    simpl. rewrite Ht, HT. simpl. rewrite Hs, Hr.
    unfold ends_stream in Hend. apply negb_true_iff in Hend.
    destruct rest; simpl; rewrite Hend, app_nil_r; reflexivity.
  - simpl in Hgood, Hcur.
    apply andb_prop in Hgood. destruct Hgood as [Hgp Hgood].
    apply andb_prop in Hcur. destruct Hcur as [Hcp Hcur].
    destruct (good_page_inv p Hgp) as [Hs Hr].
    unfold has_cursor in Hcp. apply andb_prop in Hcp.
    destruct Hcp as [Hpt HpT]. apply negb_true_iff in HpT.
    cbn [app get_pages]. rewrite Ht, HT. cbn [andb negb Dict.update fold_left fst snd].
    rewrite Hs, Hr.
    rewrite (IH last rest _ _ _ _ Hpt HpT Hgood Hcur Hend).
    f_equal.
    + simpl. rewrite <- app_assoc. reflexivity.
    + f_equal. rewrite <- app_assoc. cbn [app map]. f_equal. f_equal.
      rewrite set_set. f_equal.
      apply map_ext. intros r. unfold follow_up. now rewrite set_set.
Qed.

(** The loop from its start, [offset = True]. *)
Lemma get_pages_from_start (pages : list response) (last : response)
    (rest : list response) (log : list request) (params : pydict) :
  forallb good_page (pages ++ [last]) = true ->
  forallb has_cursor pages = true ->
  ends_stream last = true ->
  get_pages (pages ++ last :: rest) log url headers params (VBool true) []
  = (Ok (List.concat (map page_items (pages ++ [last]))),
     mkSession rest
       (log ++ page_request url headers params :: map (follow_up url headers params) pages)).
Proof.
  intros Hgood Hcur Hend.
  destruct pages as [|p pages].
  - simpl in Hgood. rewrite andb_true_r in Hgood.
    destruct (good_page_inv last Hgood) as [Hs Hr].
    simpl. rewrite Hs, Hr.
    unfold ends_stream in Hend. apply negb_true_iff in Hend.
    destruct rest; simpl; rewrite Hend, app_nil_r; reflexivity.
  - simpl in Hgood, Hcur.
    apply andb_prop in Hgood. destruct Hgood as [Hgp Hgood].
    apply andb_prop in Hcur. destruct Hcur as [Hcp Hcur].
    destruct (good_page_inv p Hgp) as [Hs Hr].
    unfold has_cursor in Hcp. apply andb_prop in Hcp.
    destruct Hcp as [Hpt HpT]. apply negb_true_iff in HpT.
    cbn [app get_pages truthy is_True andb negb]. rewrite Hs, Hr.
    rewrite (get_pages_from_cursor pages last rest _ _ _ _ Hpt HpT Hgood Hcur Hend).
    f_equal. f_equal. rewrite <- app_assoc. reflexivity.
Qed.

End Pagination.

Lemma return_records_headers (self : client) (h : pydict) (process : bool)
    (records : list value) :
  return_records (set_headers self h) process records
  = return_records self process records.
Proof. reflexivity. Qed.

(** C4 (as amended).  Over status-200 responses with well-formed
    bodies, [get] sends its first request without an ["offset"]
    parameter, sends each later request with the ["offset"] of the
    response before it, stops at the first response whose ["offset"] is
    absent or falsy, leaving the responses after it unread, and returns
    the records of the pages it read, in order (decoded when [process]
    is set).  The offsets it follows are truthy values other than
    [True]. *)
Theorem get_pagination (self : client) (s : session) (table : string)
    (view base : option string) (process : option bool) (direct : bool)
    (pages : list response) (last : response) (rest : list response) :
  raised (resolve_base self base) = false ->
  pending s = pages ++ last :: rest ->
  forallb good_page (pages ++ [last]) = true ->
  forallb has_cursor pages = true ->
  ends_stream last = true ->
  exists (url : string) (headers params : pydict),
    Dict.get params "offset" = None
    /\ outcome_of (get self s table view base process direct)
       = return_records self (resolve_process self process)
           (List.concat (map page_items (pages ++ [last])))
    /\ session_after (get self s table view base process direct)
       = mkSession rest
           (sent s
            ++ mkRequest GET url headers params None
            :: map (fun r => mkRequest GET url headers
                               (Dict.set params "offset" (page_offset (json r)))
                               None)
                   pages).
Proof.
  intros Hbase Hpending Hgood Hcur Hend.
  unfold get, outcome_of, session_after.
  destruct (resolve_base self base) as [b|e]; [clear Hbase | discriminate].
  rewrite Hpending.
  match goal with
  | |- context [get_pages _ _ ?u ?h ?p _ _] =>
      exists u, h, p;
      rewrite (get_pages_from_start u h pages last rest (sent s) p Hgood Hcur Hend)
  end.
  split; [|split].
  - destruct view as [v|]; [|reflexivity].
    destruct (truthy (VStr v)); reflexivity.
  - cbn [fst bind].
    destruct (match _cache_token self with Some _ => direct | None => true end);
      [reflexivity | apply return_records_headers].
  - reflexivity.
Qed.

(** A cursor on page 1 and none on page 2: two fetches, both pages. *)
Lemma get_pagination_witness :
  exists (url : string) (headers params : pydict),
    Dict.get params "offset" = None
    /\ outcome_of (get sample_client (mkSession [page_one; page_two] [])
                       "tbl" None None (Some false) true)
       = Ok [VInt 1; VInt 2; VInt 3]
    /\ session_after (get sample_client (mkSession [page_one; page_two] [])
                          "tbl" None None (Some false) true)
       = mkSession []
           [mkRequest GET url headers params None;
            mkRequest GET url headers (Dict.set params "offset" (VStr "itr1")) None].
Proof.
  apply (get_pagination sample_client (mkSession [page_one; page_two] [])
           "tbl" None None (Some false) true [page_one] page_two []);
    reflexivity.
Defined.

(** C4 as stated fails on a response that carries an ["offset"] which
    is the empty string: the field is there, and the loop stops all the
    same, after one fetch. *)
Lemma get_pagination_counterexample :
  Dict.get [("records", VList [VInt 1]); ("offset", VStr "")] "offset"
    = Some (VStr "")
  /\ get sample_client (mkSession [page_empty_cursor; page_two] [])
         "tbl" None None (Some false) true
     = (Ok [VInt 1], sample_client,
        mkSession [page_two]
          [mkRequest GET "https://api.airtable.com/v0/appX/tbl"
                     (__headers sample_client) [] None]).
Proof.
  split; reflexivity.
Qed.

(** ** C8: a failed chunk fails the call *)

Lemma classify_write_fails (r : response) :
  status_code r <> 200%Z -> raised (classify_write r) = true.
Proof.
  intros Hs. unfold classify_write.
  apply Z.eqb_neq in Hs. rewrite Hs. simpl.
  destruct (contains_key (json r) "error"); reflexivity.
Qed.

Lemma send_chunks_fails {A : Type} (mk : list A -> request)
    (classify : response -> outcome (list value)) (chunks : list (list A)) :
  forall (records : list value) (s : session) (k : nat) (r : response),
    nth_error (pending s) k = Some r ->
    raised (classify r) = true ->
    k < List.length chunks ->
    raised (fst (send_chunks mk classify chunks records s)) = true.
Proof.
  induction chunks as [|chunk chunks IH]; intros records s k r Hk Hr Hlen.
  - simpl in Hlen. lia.
  - cbn [send_chunks]. unfold send.
    destruct (pending s) as [|r0 rest] eqn:Hp.
    + destruct k; discriminate.
    + destruct (classify r0) as [recs|e] eqn:Hc; [|reflexivity].
      destruct k as [|k].
      * simpl in Hk. inversion Hk; subst. rewrite Hc in Hr. discriminate.
      * apply (IH _ _ k r); simpl in *; auto. lia.
Qed.

Lemma length_for_each {A B : Type} (body : A -> outcome B) (l : list A) (out : list B) :
  for_each body l = Ok out -> List.length out = List.length l.
Proof.
  revert out. induction l as [|x l IH]; intros out H; simpl in H.
  - inversion H. reflexivity.
  - destruct (body x); [|discriminate].
    destruct (for_each body l) as [ys|]; [|discriminate].
    simpl in H. inversion H. simpl. f_equal. now apply IH.
Qed.

Lemma length_chunks {A : Type} (data : list A) (n k : nat) :
  0 < n -> k * n < List.length data -> k < List.length (chunks data n).
Proof.
  intros Hn Hk. rewrite chunks_as_map, length_map, length_seq.
  destruct (Nat.eqb (List.length data) 0) eqn:E.
  - apply Nat.eqb_eq in E. lia.
  - assert (k <= (List.length data - 1) / n).
    { apply Nat.div_le_lower_bound; lia. }
    lia.
Qed.

(** C8.  If the response to some chunk of a [write] call has a status
    other than 200, the call raises: no record of the chunks written
    before it is returned. *)
Theorem write_fails_on_bad_chunk (self : client) (s : session) (table : string)
    (data : value) (rows : list value) (base : option string)
    (process : option bool) (k : nat) (r : response) :
  payload_records data = Some rows ->
  k * n_limit < List.length rows ->
  nth_error (pending s) k = Some r ->
  status_code r <> 200%Z ->
  exists e : exn,
    outcome_of (write self s table data base process) = Raise e.
Proof.
  intros Hdata Hk Hr Hs.
  assert (Hsend : forall (mk : list value -> request) (out : list value),
             List.length out = List.length rows ->
             raised (fst (send_chunks mk classify_write (chunks out n_limit) [] s))
             = true).
  { intros mk out Hout.
    apply (send_chunks_fails mk classify_write _ [] s k r Hr
             (classify_write_fails r Hs)).
    apply length_chunks; [unfold n_limit; lia | now rewrite Hout]. }
  assert (H : raised (outcome_of (write self s table data base process)) = true).
  { unfold write, outcome_of.
    destruct (resolve_base self base) as [b|e]; [|reflexivity].
    cbn [bind].
    destruct data as [| | | | |l|d]; try discriminate; cbn [payload_records] in Hdata.
    - inversion Hdata; subst l. destruct (resolve_process self process).
      + cbn [iterate bind]. unfold _process_records_for_at.
        destruct (for_each (for_at_row self false true) rows) as [out|e] eqn:Hout;
          [|reflexivity].
        cbn [bind unwrap_records as_sequence send_sequence].
        apply length_for_each in Hout.
        match goal with
        | |- context [send_chunks ?mk ?c ?ch ?rs ?ss] =>
            pose proof (Hsend mk out Hout) as Hf;
            destruct (send_chunks mk c ch rs ss) as [res s']
        end.
        exact Hf.
      + cbn [bind unwrap_records as_sequence send_sequence].
        match goal with
        | |- context [send_chunks ?mk ?c ?ch ?rs ?ss] =>
            pose proof (Hsend mk rows eq_refl) as Hf;
            destruct (send_chunks mk c ch rs ss) as [res s']
        end.
        exact Hf.
    - destruct (Dict.get d "records") as [[| | | | |l|]|] eqn:Hd; try discriminate.
      inversion Hdata; subst l. destruct (resolve_process self process).
      + destruct d as [|[k0 v0] d]; [discriminate|]. reflexivity.
      + cbn [bind unwrap_records]. unfold subscript. rewrite Hd.
        cbn [bind as_sequence send_sequence].
        match goal with
        | |- context [send_chunks ?mk ?c ?ch ?rs ?ss] =>
            pose proof (Hsend mk rows eq_refl) as Hf;
            destruct (send_chunks mk c ch rs ss) as [res s']
        end.
        exact Hf. }
  destruct (outcome_of (write self s table data base process)) as [a|e].
  - discriminate.
  - now exists e.
Qed.

(** Fifteen records, 422 on the second chunk. *)
Lemma write_fails_on_bad_chunk_witness :
  exists e : exn,
    outcome_of (write sample_client (mkSession [created_ten; unprocessable] [])
                      "tbl" (VList fifteen_rows) None (Some false))
    = Raise e.
Proof.
  apply (write_fails_on_bad_chunk sample_client
           (mkSession [created_ten; unprocessable] [])
           "tbl" (VList fifteen_rows) fifteen_rows None (Some false)
           1 unprocessable).
  - reflexivity.
  - unfold n_limit. simpl. lia.
  - reflexivity.
  - simpl. discriminate.
Defined.

(** The same call, evaluated: the error is the [RuntimeError] of the
    second chunk and both chunks were sent. *)
Example write_fifteen_422 :
  outcome_of (write sample_client (mkSession [created_ten; unprocessable] [])
                    "tbl" (VList fifteen_rows) None (Some false))
  = Raise (RuntimeError (DidNotReturn200 "bad field"))
  /\ List.length (sent (session_after
        (write sample_client (mkSession [created_ten; unprocessable] [])
               "tbl" (VList fifteen_rows) None (Some false)))) = 2.
Proof. split; reflexivity. Qed.

(** A string has a length and slices, so with processing off [write]
    sends it ten characters at a time; a dictionary left under
    ["records"] has a length and no slices, so nothing is sent. *)
Example write_slices_a_string :
  write sample_client (mkSession [created_ten; created_five] [])
        "tbl" (VStr "abcdefghijkl") None (Some false)
  = (Ok fifteen_rows, sample_client,
     mkSession []
       [mkRequest POST (endpoint (_at_url sample_client) "appX" "tbl")
                  (__headers sample_client) []
                  (Some (VDict [("records", VStr "abcdefghij")]));
        mkRequest POST (endpoint (_at_url sample_client) "appX" "tbl")
                  (__headers sample_client) []
                  (Some (VDict [("records", VStr "kl")]))]).
Proof. reflexivity. Qed.

Example write_cannot_slice_a_dict :
  write sample_client (mkSession [created_ten] []) "tbl"
        (VDict [("records", VDict [("fields", VDict [])])]) None (Some false)
  = (Raise TypeError, sample_client, mkSession [created_ten] []).
Proof. reflexivity. Qed.

(** ** C10: the cache header stays in the client's headers *)

Section CacheHeader.

Variable tok : string.

Lemma logs_with_refl (h : pydict) (log : list request) : logs_with h log log.
Proof. exists []. split; [now rewrite app_nil_r | constructor]. Qed.

Lemma logs_with_step (h : pydict) (log after : list request) (rq : request) :
  req_headers rq = h -> logs_with h (log ++ [rq]) after -> logs_with h log after.
Proof.
  intros Hh [new [-> Hall]]. exists (rq :: new).
  split; [now rewrite <- app_assoc | now constructor].
Qed.

Lemma get_pages_log (pending : list response) :
  forall (log : list request) (url : string) (headers params : pydict)
         (offset : value) (records : list value),
    logs_with headers log
      (sent (snd (get_pages pending log url headers params offset records))).
Proof.
  induction pending as [|r rest IH]; intros log url headers params offset records;
    cbn [get_pages]; destruct (truthy offset); cbn [snd sent];
    try apply logs_with_refl.
  - eapply logs_with_step; [|apply logs_with_refl]. reflexivity.
  - destruct (negb (status_code r =? 200)%Z).
    + eapply logs_with_step; [|apply logs_with_refl]. reflexivity.
    + destruct (page_records (json r)).
      * eapply logs_with_step; [|apply IH]. reflexivity.
      * eapply logs_with_step; [|apply logs_with_refl]. reflexivity.
Qed.

Lemma send_chunks_log {A : Type} (mk : list A -> request)
    (classify : response -> outcome (list value)) (h : pydict)
    (chunks : list (list A)) :
  (forall chunk, req_headers (mk chunk) = h) ->
  forall (records : list value) (s : session),
    logs_with h (sent s) (sent (snd (send_chunks mk classify chunks records s))).
Proof.
  intros Hmk. induction chunks as [|chunk chunks IH]; intros records s;
    cbn [send_chunks].
  - apply logs_with_refl.
  - unfold send. destruct (pending s) as [|r rest].
    + eapply logs_with_step; [apply (Hmk chunk) | apply logs_with_refl].
    + destruct (classify r).
      * eapply logs_with_step; [apply (Hmk chunk)|].
        apply (IH (records ++ a) (mkSession rest (sent s ++ [mk chunk]))).
      * eapply logs_with_step; [apply (Hmk chunk) | apply logs_with_refl].
Qed.

Lemma get_effect (self : client) (s : session) (table : string)
    (view base : option string) (process : option bool) (direct : bool) :
  cache_configured self tok ->
  let r := get self s table view base process direct in
  cache_configured (client_after r) tok
  /\ logs_with (__headers (client_after r)) (sent s) (sent (session_after r))
  /\ __headers (client_after r)
     = if raised (resolve_base self base) || direct
       then __headers self
       else Dict.set (__headers self) "X-Mw-Bearer" (VStr tok).
Proof.
  intros [Htok Hch]. unfold get, client_after, session_after.
  rewrite Htok.
  destruct (resolve_base self base) as [b|e]; cbn [fst snd raised].
  - match goal with
    | |- context [get_pages ?p ?l ?u ?h ?pa ?o ?rs] =>
        pose proof (get_pages_log p l u h pa o rs) as Hlog;
        destruct (get_pages p l u h pa o rs) as [res s']
    end.
    cbn [fst snd] in *.
    destruct direct; cbn [set_headers __headers _cache_token __cache_header] in *.
    + repeat split; auto.
    + rewrite Hch in *. cbn [Dict.update fold_left fst snd] in *.
      repeat split; auto.
  - repeat split; auto. apply logs_with_refl.
Qed.

(** The three mutating methods end in the same loop; what it adds to
    the log carries the headers of the client. *)
Ltac chunks_logged self :=
  match goal with
  | |- context [send_chunks ?mk ?c ?ch ?rs ?ss] =>
      let Hlog := fresh "Hlog" in
      pose proof (send_chunks_log mk c (__headers self) ch
                    (fun _ => eq_refl) rs ss) as Hlog;
      destruct (send_chunks mk c ch rs ss);
      split; [reflexivity | exact Hlog]
  end.

Lemma write_effect (self : client) (s : session) (table : string)
    (data : value) (base : option string) (process : option bool) :
  let r := write self s table data base process in
  client_after r = self
  /\ logs_with (__headers self) (sent s) (sent (session_after r)).
Proof.
  unfold write, client_after, session_after.
  match goal with
  | |- context [match ?m with Ok _ => _ | Raise _ => _ end] => destruct m as [[b d]|e]
  end; cbn [fst snd].
  - destruct d as [items|chars]; cbn [send_sequence]; chunks_logged self.
  - split; [reflexivity | apply logs_with_refl].
Qed.

Lemma update_effect (self : client) (s : session) (table : string)
    (data : value) (base : option string) (process : option bool)
    (keep_none : bool) :
  let r := update self s table data base process keep_none in
  client_after r = self
  /\ logs_with (__headers self) (sent s) (sent (session_after r)).
Proof.
  unfold update, client_after, session_after.
  match goal with
  | |- context [match ?m with Ok _ => _ | Raise _ => _ end] => destruct m as [[b d]|e]
  end; cbn [fst snd].
  - destruct d as [items|chars]; cbn [send_sequence]; chunks_logged self.
  - split; [reflexivity | apply logs_with_refl].
Qed.

Lemma delete_effect (self : client) (s : session) (table : string)
    (list_of_ids : list string) (base : option string) :
  let r := delete self s table list_of_ids base in
  client_after r = self
  /\ logs_with (__headers self) (sent s) (sent (session_after r)).
Proof.
  unfold delete, client_after, session_after.
  destruct (resolve_base self base) as [b|e]; cbn [fst snd].
  - chunks_logged self.
  - split; [reflexivity | apply logs_with_refl].
Qed.

Lemma logs_with_header (h : pydict) (before after : list request) :
  Dict.get h "X-Mw-Bearer" = Some (VStr tok) ->
  logs_with h before after ->
  exists new, after = before ++ new /\ Forall (sends_cache_header tok) new.
Proof.
  intros Hh [new [-> Hall]]. exists new. split; [reflexivity|].
  eapply Forall_impl; [|exact Hall].
  intros rq Hrq. unfold sends_cache_header. now rewrite Hrq.
Qed.

Lemma run_call_keeps_header (self : client) (s : session) (c : call) :
  header_installed tok self ->
  header_installed tok (fst (run_call (self, s) c))
  /\ exists new, sent (snd (run_call (self, s) c)) = sent s ++ new
                 /\ Forall (sends_cache_header tok) new.
Proof.
  intros [Hcfg Hh]. destruct c; cbn [run_call fst snd].
  - destruct (get_effect self s table view base process direct Hcfg)
      as [Hcfg' [Hlog Hheaders]].
    assert (Hh' : Dict.get (__headers (client_after
                    (get self s table view base process direct))) "X-Mw-Bearer"
                  = Some (VStr tok)).
    { rewrite Hheaders.
      destruct (raised (resolve_base self base) || direct);
        [exact Hh | apply get_set_same]. }
    split; [split; assumption|].
    eapply logs_with_header; eassumption.
  - destruct (write_effect self s table data base process) as [-> Hlog].
    split; [split; assumption|].
    eapply logs_with_header; eassumption.
  - destruct (update_effect self s table data base process keep_none) as [-> Hlog].
    split; [split; assumption|].
    eapply logs_with_header; eassumption.
  - destruct (delete_effect self s table list_of_ids base) as [-> Hlog].
    split; [split; assumption|].
    eapply logs_with_header; eassumption.
Qed.

Lemma run_calls_keep_header (cs : list call) :
  forall (self : client) (s : session),
    header_installed tok self ->
    header_installed tok (fst (run_calls (self, s) cs))
    /\ exists new, sent (snd (run_calls (self, s) cs)) = sent s ++ new
                   /\ Forall (sends_cache_header tok) new.
Proof.
  unfold run_calls.
  induction cs as [|c cs IH]; intros self s Hinst; cbn [fold_left].
  - split; [exact Hinst|]. exists []. split; [now rewrite app_nil_r | constructor].
  - destruct (run_call_keeps_header self s c Hinst) as [Hinst' [new1 [Hs1 Hall1]]].
    destruct (run_call (self, s) c) as [self1 s1]. cbn [fst snd] in *.
    destruct (IH self1 s1 Hinst') as [Hinst2 [new2 [Hs2 Hall2]]].
    split; [exact Hinst2|].
    exists (new1 ++ new2). split.
    + now rewrite Hs2, Hs1, app_assoc.
    + apply Forall_app. now split.
Qed.

End CacheHeader.

(** C10.  A [get] with [direct = False] on a client with a cache token
    (and a base to address) leaves [X-Mw-Bearer] in the client's own
    headers, whether the call returns or raises; the header is never
    taken out again, and every request of every later [get], [write],
    [update] or [delete] on that client carries it. *)
Theorem get_cache_header_persists (self : client) (s : session) (tok : string)
    (table : string) (view base : option string) (process : option bool)
    (later : list call) :
  cache_configured self tok ->
  raised (resolve_base self base) = false ->
  let r := get self s table view base process false in
  Dict.get (__headers (client_after r)) "X-Mw-Bearer" = Some (VStr tok)
  /\ Dict.get (__headers (fst (run_calls (client_after r, session_after r) later)))
              "X-Mw-Bearer" = Some (VStr tok)
  /\ exists new : list request,
       sent (snd (run_calls (client_after r, session_after r) later))
         = sent (session_after r) ++ new
       /\ Forall (sends_cache_header tok) new.
Proof.
  intros Hcfg Hbase r.
  destruct (get_effect tok self s table view base process false Hcfg)
    as [Hcfg' [_ Hheaders]].
  fold r in Hcfg', Hheaders.
  assert (Hinst : header_installed tok (client_after r)).
  { split; [exact Hcfg'|].
    rewrite Hheaders, Hbase. apply get_set_same. }
  split; [apply Hinst|].
  destruct (run_calls_keep_header tok later (client_after r) (session_after r) Hinst)
    as [[_ Hh] Hnew].
  split; assumption.
Qed.

Lemma get_cache_header_persists_witness :
  let r := get sample_client
               (mkSession [page_two; created_ten; unprocessable; page_two] [])
               "tbl" None None (Some false) false in
  Dict.get (__headers (client_after r)) "X-Mw-Bearer" = Some (VStr "tok")
  /\ Dict.get (__headers (fst (run_calls (client_after r, session_after r)
                                         later_calls)))
              "X-Mw-Bearer" = Some (VStr "tok")
  /\ exists new : list request,
       sent (snd (run_calls (client_after r, session_after r) later_calls))
         = sent (session_after r) ++ new
       /\ Forall (sends_cache_header "tok") new.
Proof.
  apply (get_cache_header_persists sample_client
           (mkSession [page_two; created_ten; unprocessable; page_two] [])
           "tok" "tbl" None None (Some false) later_calls).
  - split; reflexivity.
  - reflexivity.
Defined.

(** The constructor configures the cache header whenever it is given a
    token. *)
Lemma init_cache_configured (apikey : string) (process : bool)
    (personal_token base : option string) (tok : string) :
  cache_configured (__init__ apikey process personal_token (Some tok) base) tok.
Proof. split; reflexivity. Qed.

(** ** C5 and C6: the record matcher *)

Lemma length_remove_rec (i : nat) (rec : pydict) (updated : list pydict) :
  List.length (remove_rec i rec updated) <= List.length updated.
Proof.
  revert i. induction updated as [|x rest IH]; intros i;
    cbn [remove_rec List.length].
  - lia.
  - destruct i as [|i]; [lia|].
    destruct (py_eq (VDict x) (VDict rec)); cbn [List.length]; [lia|].
    specialize (IH i). lia.
Qed.

Lemma length_assign_at (i : nat) (k : string) (v : value) (l : list pydict) :
  List.length (assign_at i k v l) = List.length l.
Proof.
  revert i. induction l as [|x rest IH]; intros i; simpl.
  - reflexivity.
  - destruct i; simpl; auto.
Qed.

(** The loop never runs out of fuel when started with the length of the
    list: the matcher always returns or raises. *)
Lemma match_loop_total (self : client) (data_w_id : list pydict)
    (keys : list string) (fuel : nat) :
  forall (i : nat) (updated missing_id not_updated : list pydict),
    List.length updated <= i + fuel ->
    match_loop self data_w_id keys fuel i updated missing_id not_updated <> None.
Proof.
  induction fuel as [|fuel IH]; intros i updated missing_id not_updated Hlen.
  - cbn [match_loop].
    destruct (nth_error updated i) eqn:E; [|discriminate].
    assert (Hlt : i < List.length updated).
    { apply nth_error_Some. congruence. }
    exfalso. lia.
  - cbn [match_loop].
    destruct (nth_error updated i) as [rec|]; [|discriminate].
    destruct (filter_rows (fun d => keys_agree d rec keys) data_w_id)
      as [[|rec_id more]|e]; try discriminate.
    + destruct (uid_of rec keys []); [|discriminate].
      apply IH. pose proof (length_remove_rec i rec updated). lia.
    + destruct (1 <? List.length (rec_id :: more))%nat; [discriminate|].
      destruct (subscript rec_id (_at_rec_id self)); [|discriminate].
      apply IH. rewrite length_assign_at. lia.
Qed.

Lemma match_at_rec_id_total (self : client) (data_wo_id data_w_id : list pydict)
    (keys : list string) :
  match_at_rec_id self data_wo_id data_w_id keys <> None.
Proof. unfold match_at_rec_id. apply match_loop_total. lia. Qed.

(** A row the loop does test, and that more than one row of
    [data_w_id] agrees with, makes the call raise. *)
Lemma match_loop_ambiguous (self : client) (data_w_id : list pydict)
    (keys : list string) (fuel i : nat)
    (updated missing_id not_updated : list pydict)
    (rec : pydict) (rec_id_list : list pydict) :
  nth_error updated i = Some rec ->
  filter_rows (fun d => keys_agree d rec keys) data_w_id = Ok rec_id_list ->
  1 < List.length rec_id_list ->
  match_loop self data_w_id keys (S fuel) i updated missing_id not_updated
  = Some (Raise (RuntimeError (DuplicateRecords keys rec_id_list))).
Proof.
  intros Hnth Hfilter Hlen. cbn [match_loop]. rewrite Hnth, Hfilter.
  destruct rec_id_list as [|rec_id more]; [simpl in Hlen; lia|].
  apply Nat.ltb_lt in Hlen. now rewrite Hlen.
Qed.

(** C5.  Two rows, neither with a match: the first is recorded and
    moved out, which shifts the second under the iterator; the loop ends
    without testing it.  The second row has no match either, yet it is
    returned in [updated], without an identifier, and nothing is
    recorded for it. *)
Theorem match_skips_row_after_unmatched :
  filter_rows (fun d => keys_agree d (uid_row 2) ["uid"]) [] = Ok []
  /\ match_at_rec_id sample_client [uid_row 1; uid_row 2] [] ["uid"]
     = Some (Ok ([uid_row 2], [uid_row 1], [uid_row 1])).
Proof. split; reflexivity. Qed.

(** C6.  [uid = 1] is the key of two rows with identifiers, and the
    row with [uid = 1] comes right after a row without a match: it is
    skipped, and the call returns instead of raising. *)
Theorem match_misses_duplicate_after_unmatched :
  filter_rows (fun d => keys_agree d (uid_row 1) ["uid"])
              [uid_row_with_id 1 "recA"; uid_row_with_id 1 "recB"]
  = Ok [uid_row_with_id 1 "recA"; uid_row_with_id 1 "recB"]
  /\ match_at_rec_id sample_client [uid_row 0; uid_row 1]
       [uid_row_with_id 1 "recA"; uid_row_with_id 1 "recB"] ["uid"]
     = Some (Ok ([uid_row 1], [uid_row 0], [uid_row 0])).
Proof. split; reflexivity. Qed.

(** The same two rows in the other order: the ambiguity is found. *)
Example match_raises_on_tested_duplicate :
  match_at_rec_id sample_client [uid_row 1; uid_row 0]
    [uid_row_with_id 1 "recA"; uid_row_with_id 1 "recB"] ["uid"]
  = Some (Raise (RuntimeError
                   (DuplicateRecords ["uid"]
                      [uid_row_with_id 1 "recA"; uid_row_with_id 1 "recB"]))).
Proof. reflexivity. Qed.

(* ================================================================== *)
(** * Further properties of the transcoders *)

Lemma encoded_finite (v : value) : nonfinite (encoded v) = false.
Proof.
  destruct v; try reflexivity.
  unfold encoded, special_label.
  destruct f as [s|s| |s m e]; try reflexivity.
  destruct s; reflexivity.
Qed.

Lemma record_fields_new (fields : pydict) :
  record_fields (VDict [("fields", VDict fields)]) = fields.
Proof. reflexivity. Qed.

Lemma record_fields_update (i : value) (fields : pydict) :
  record_fields (VDict [("id", i); ("fields", VDict fields)]) = fields.
Proof. reflexivity. Qed.

Lemma for_at_row_finite (self : client) (keep_none new : bool) (row : pydict)
    (rec : value) :
  Dict.wf row ->
  for_at_row self keep_none new (VDict row) = Ok rec ->
  Forall (fun kv => nonfinite (snd kv) = false) (record_fields rec).
Proof.
  intros Hwf Hrow.
  assert (Hall : Forall (fun kv => nonfinite (snd kv) = false)
                        (map encode_item (resolve_none keep_none row))).
  { apply Forall_forall. intros kv Hin. apply in_map_iff in Hin.
    destruct Hin as [[k v] [<- _]]. apply encoded_finite. }
  destruct new.
  - rewrite for_at_row_new, for_at_step2 in Hrow by (now apply wf_resolve_none).
    inversion Hrow; subst. now rewrite record_fields_new.
  - rewrite for_at_row_update in Hrow. cbv zeta in Hrow.
    rewrite for_at_step2 in Hrow by (now apply wf_resolve_none).
    destruct (Dict.get (map encode_item (resolve_none keep_none row))
                       (_at_rec_id self)) as [i|]; [|discriminate].
    inversion Hrow; subst. rewrite record_fields_update.
    unfold without_id. apply Forall_forall. intros kv Hin.
    apply filter_In in Hin. rewrite Forall_forall in Hall. apply Hall. tauto.
Qed.

(** X1.  Whatever the mode and [keep_none], no field of a record built
    by [_process_records_for_at] holds a raw infinite or NaN float: each
    has been replaced by its tagged object. *)
Theorem for_at_sends_no_raw_nonfinite (self : client) (rows : list pydict)
    (keep_none new : bool) (out : value) (recs : list value) :
  Forall Dict.wf rows ->
  _process_records_for_at self (map VDict rows) keep_none new = Ok out ->
  payload_records out = Some recs ->
  Forall (fun rec => Forall (fun kv => nonfinite (snd kv) = false)
                            (record_fields rec)) recs.
Proof.
  intros Hwf Hrun Hrecs. unfold _process_records_for_at in Hrun.
  destruct (for_each (for_at_row self keep_none new) (map VDict rows))
    as [output|e] eqn:Hloop; [|discriminate].
  cbn [bind] in Hrun.
  assert (recs = output) as ->.
  { destruct new; inversion Hrun; subst out; cbn in Hrecs; congruence. }
  clear Hrun Hrecs. revert output Hloop.
  induction rows as [|row rows IH]; intros output Hloop; cbn [map for_each] in Hloop.
  - inversion Hloop. constructor.
  - inversion Hwf as [|? ? Hrow Hwf']; subst.
    destruct (for_at_row self keep_none new (VDict row)) as [rec|e] eqn:Er;
      [|discriminate].
    cbn [bind] in Hloop.
    destruct (for_each (for_at_row self keep_none new) (map VDict rows))
      as [ys|e]; [|discriminate].
    cbn [bind] in Hloop. inversion Hloop; subst.
    constructor; [|now apply IH].
    now apply (for_at_row_finite self keep_none new row).
Qed.

Lemma for_at_sends_no_raw_nonfinite_witness :
  Forall (fun rec => Forall (fun kv => nonfinite (snd kv) = false)
                            (record_fields rec))
         [VDict [("fields",
                  VDict [("name", VStr "ada"); ("n", VInt 3); ("ok", VBool true)])];
          VDict [("fields",
                  VDict [("hi", VDict [("specialValue", VStr "Infinity")]);
                         ("lo", VDict [("specialValue", VStr "-Infinity")]);
                         ("q", VDict [("specialValue", VStr "NaN")]);
                         ("h", VFloat (S754_finite false 7 (-1)))])]].
Proof.
  eapply (for_at_sends_no_raw_nonfinite sample_client sample_rows false true).
  - unfold sample_rows, Dict.wf. simpl.
    repeat constructor; simpl; intuition discriminate.
  - reflexivity.
  - reflexivity.
Defined.

(** X2.  In new-record mode the encoder cannot fail on rows that are
    dictionaries, and it builds one record per row. *)
Theorem for_at_new_always_succeeds (self : client) (rows : list pydict)
    (keep_none : bool) :
  exists out : list value,
    _process_records_for_at self (map VDict rows) keep_none true = Ok (VList out)
    /\ List.length out = List.length rows.
Proof.
  unfold _process_records_for_at.
  induction rows as [|row rows IH]; cbn [map for_each].
  - exists []. split; reflexivity.
  - destruct IH as [out [Hrun Hlen]].
    rewrite for_at_row_new. cbn [bind].
    destruct (for_each (for_at_row self keep_none true) (map VDict rows))
      as [ys|e]; [|discriminate].
    cbn [bind] in *. inversion Hrun; subst.
    eexists. split; [reflexivity|]. simpl. now rewrite Hlen.
Qed.

Lemma for_each_update_raises (self : client) (keep_none : bool)
    (rows : list pydict) (row : pydict) :
  In row rows ->
  for_at_row self keep_none false (VDict row) = Raise (KeyError (_at_rec_id self)) ->
  for_each (for_at_row self keep_none false) (map VDict rows)
  = Raise (KeyError (_at_rec_id self)).
Proof.
  intros Hin Hbad.
  induction rows as [|r rows IH]; cbn [map for_each].
  - contradiction.
  - destruct (for_at_row self keep_none false (VDict r)) as [out|e] eqn:Er.
    + destruct Hin as [Heq | Hin].
      * subst r. congruence.
      * cbn [bind]. rewrite IH by assumption. reflexivity.
    + cbn [bind]. apply for_at_row_update_error in Er. now subst e.
Qed.

(** X3.  In update mode with the default [keep_none = False], a row
    whose identifier is [None] is refused like a row without one: step 1
    drops the entry before step 3 looks it up. *)
Theorem for_at_update_refuses_none_id (self : client) (rows : list pydict)
    (row : pydict) :
  In row rows ->
  Dict.wf row ->
  Dict.get row (_at_rec_id self) = Some VNone ->
  _process_records_for_at self (map VDict rows) false false
  = Raise (KeyError (_at_rec_id self)).
Proof.
  intros Hin Hwf Hnone. unfold _process_records_for_at.
  rewrite (for_each_update_raises self false rows row Hin); [reflexivity|].
  rewrite for_at_row_update. cbv zeta.
  rewrite for_at_step2 by (now apply wf_resolve_none).
  rewrite get_encode, get_resolve_none, Hnone by assumption.
  reflexivity.
Qed.

Lemma for_at_update_refuses_none_id_witness :
  _process_records_for_at sample_client
    (map VDict [[("at_record_id", VNone); ("a", VInt 1)]]) false false
  = Raise (KeyError "at_record_id").
Proof.
  apply (for_at_update_refuses_none_id sample_client
           [[("at_record_id", VNone); ("a", VInt 1)]]
           [("at_record_id", VNone); ("a", VInt 1)]).
  - simpl. left. reflexivity.
  - unfold Dict.wf. simpl. repeat constructor; simpl; intuition discriminate.
  - reflexivity.
Defined.

Lemma decoded_wire (keep_none : bool) (v : value) :
  wire_value keep_none v = true ->
  field_effect v = Some (decoded v)
  /\ encoded (decoded v) = v
  /\ (is_None (decoded v) && negb keep_none = false).
Proof.
  unfold decoded. destruct v; cbn [wire_value]; intros Hw.
  - subst keep_none. repeat split.
  - repeat split.
  - repeat split.
  - repeat split; try reflexivity.
    cbn [field_effect]. unfold encoded, special_label.
    apply negb_true_iff in Hw. apply orb_false_iff in Hw. destruct Hw as [Hi Hn].
    now rewrite Hi, Hn.
  - repeat split.
  - repeat split.
  - apply orb_prop in Hw. destruct Hw as [Htag | Hno].
    + destruct d as [|[k [| | | |tag| |]] [|]]; try discriminate.
      cbn [is_tag_object] in Htag. apply andb_prop in Htag.
      destruct Htag as [Hk Ht]. apply String.eqb_eq in Hk. subst k.
      apply orb_prop in Ht. destruct Ht as [Ht | Ht].
      * apply orb_prop in Ht. destruct Ht as [Ht | Ht];
          apply String.eqb_eq in Ht; subst tag; repeat split.
      * apply String.eqb_eq in Ht; subst tag; repeat split.
    + apply negb_true_iff in Hno. cbn [field_effect]. rewrite Hno.
      repeat split.
Qed.

Lemma from_at_fold_wire (keep_none : bool) (fs acc : pydict) :
  NoDup (Dict.keys acc ++ Dict.keys fs) ->
  forallb (fun kv => wire_value keep_none (snd kv)) fs = true ->
  fold_left from_at_field fs acc = acc ++ map decode_item fs.
Proof.
  revert acc. induction fs as [|[k v] fs IH]; intros acc Hnd Hw;
    cbn [map fold_left].
  - now rewrite app_nil_r.
  - cbn [forallb snd] in Hw. apply andb_prop in Hw. destruct Hw as [Hv Hw].
    destruct (decoded_wire keep_none v Hv) as [Heff _].
    rewrite from_at_field_effect, Heff.
    simpl in Hnd. rewrite set_fresh.
    + rewrite IH; auto.
      * change (decode_item (k, v)) with (k, decoded v).
        now rewrite <- app_assoc.
      * rewrite keys_app. simpl. now rewrite <- app_assoc.
    + apply NoDup_remove_2 in Hnd. intros Hin. apply Hnd.
      apply in_or_app. now left.
Qed.

Lemma keys_decode (d : pydict) : Dict.keys (map decode_item d) = Dict.keys d.
Proof. unfold Dict.keys. rewrite map_map. reflexivity. Qed.

Lemma encode_decode_wire (keep_none : bool) (fs : pydict) :
  forallb (fun kv => wire_value keep_none (snd kv)) fs = true ->
  map encode_item (map decode_item fs) = fs
  /\ resolve_none keep_none (map decode_item fs) = map decode_item fs.
Proof.
  induction fs as [|[k v] fs IH]; intros Hw.
  - split; [reflexivity | destruct keep_none; reflexivity].
  - cbn [forallb snd] in Hw. apply andb_prop in Hw. destruct Hw as [Hv Hw].
    destruct (IH Hw) as [IH1 IH2].
    destruct (decoded_wire keep_none v Hv) as [_ [Henc Hnone]].
    split.
    + cbn [map].
      change (encode_item (decode_item (k, v))) with (k, encoded (decoded v)).
      now rewrite Henc, IH1.
    + unfold resolve_none in *. destruct keep_none; [reflexivity|].
      cbn [map filter].
      change (snd (decode_item (k, v))) with (decoded v).
      rewrite andb_true_r in Hnone. rewrite Hnone. cbn [negb].
      now rewrite IH2.
Qed.

Lemma filter_key_absent (k0 : string) (d : pydict) :
  ~ In k0 (Dict.keys d) ->
  filter (fun kv => negb (String.eqb (fst kv) k0)) d = d.
Proof.
  induction d as [|[k v] d IH]; intros Hn; cbn [filter fst].
  - reflexivity.
  - simpl in Hn. destruct (String.eqb k k0) eqn:E.
    + apply String.eqb_eq in E. tauto.
    + cbn [negb]. rewrite IH; tauto.
Qed.

Lemma service_record_roundtrip (self : client) (keep_none : bool)
    (rec : string * pydict) :
  returnable self keep_none rec ->
  exists row : pydict,
    from_at_row self true (service_record rec) = Ok row
    /\ for_at_row self keep_none false (VDict row) = Ok (service_record rec).
Proof.
  destruct rec as [rid fs]. intros [Hwf [Hfresh Hw]]. cbn [fst snd] in *.
  exists ((_at_rec_id self, VStr rid) :: map decode_item fs).
  assert (Hnd : NoDup (Dict.keys [(_at_rec_id self, VStr rid)] ++ Dict.keys fs)).
  { simpl. constructor; assumption. }
  split.
  - unfold service_record, from_at_row. cbn [fst snd].
    rewrite subscript_head. cbn [bind].
    unfold subscript. cbn [Dict.get]. cbn.
    now rewrite (from_at_fold_wire keep_none fs _ Hnd Hw).
  - destruct (encode_decode_wire keep_none fs Hw) as [Henc Hres].
    rewrite for_at_row_update. cbv zeta.
    assert (Hrow : resolve_none keep_none
                     ((_at_rec_id self, VStr rid) :: map decode_item fs)
                   = (_at_rec_id self, VStr rid) :: map decode_item fs).
    { unfold resolve_none in *. destruct keep_none; [reflexivity|].
      cbn [filter snd is_None negb]. now rewrite Hres. }
    rewrite Hrow, for_at_step2.
    + cbn [map]. unfold encode_item at 1. cbn [fst snd].
      change (encoded (VStr rid)) with (VStr rid).
      rewrite Henc. cbn [Dict.get]. rewrite String.eqb_refl.
      unfold without_id. cbn [filter fst]. rewrite String.eqb_refl. cbn [negb].
      now rewrite filter_key_absent.
    + unfold Dict.wf. simpl. rewrite keys_decode. constructor; assumption.
Qed.

(** X4.  What [_process_records_from_at] makes of service records,
    identifier kept, is what [_process_records_for_at] in update mode
    turns back into those records: decoding and re-encoding is the
    identity on records whose fields are as the service sends them and
    do not use the reserved key. *)
Theorem update_roundtrip (self : client) (keep_none : bool)
    (recs : list (string * pydict)) :
  Forall (returnable self keep_none) recs ->
  exists rows : list pydict,
    _process_records_from_at self (map service_record recs) true = Ok rows
    /\ _process_records_for_at self (map VDict rows) keep_none false
       = Ok (VDict [("records", VList (map service_record recs))]).
Proof.
  intros Hall. unfold _process_records_from_at, _process_records_for_at.
  induction recs as [|rec recs IH]; cbn [map for_each].
  - exists []. split; reflexivity.
  - inversion Hall as [|? ? Hrec Hall']; subst.
    destruct (IH Hall') as [rows [IH1 IH2]]. clear IH.
    destruct (service_record_roundtrip self keep_none rec Hrec) as [row [Hd He]].
    exists (row :: rows). rewrite Hd, IH1. cbn [bind map for_each].
    split; [reflexivity|]. rewrite He. cbn [bind].
    destruct (for_each (for_at_row self keep_none false) (map VDict rows))
      as [out|e]; [|discriminate].
    cbn [bind] in *. inversion IH2; subst. reflexivity.
Qed.

Lemma update_roundtrip_witness :
  exists rows : list pydict,
    _process_records_from_at sample_client
      (map service_record
           [("rec1", [("n", VInt 3); ("q", VDict [("specialValue", VStr "NaN")])]);
            ("rec2", [("s", VStr "x")])]) true = Ok rows
    /\ _process_records_for_at sample_client (map VDict rows) false false
       = Ok (VDict [("records",
                     VList (map service_record
                       [("rec1", [("n", VInt 3);
                                  ("q", VDict [("specialValue", VStr "NaN")])]);
                        ("rec2", [("s", VStr "x")])]))]).
Proof.
  apply (update_roundtrip sample_client false).
  repeat constructor; simpl; intuition discriminate.
Defined.

(** X5.  The reserved key of a decoded row holds the record's ["id"]
    exactly when [keep_id] is set, provided no field of the record uses
    that key; with [keep_id = False] the row then has no such key. *)
Theorem from_at_id_column (self : client) (keep_id : bool) (r fs : pydict)
    (i : value) :
  Dict.get r "id" = Some i ->
  Dict.get r "fields" = Some (VDict fs) ->
  ~ In (_at_rec_id self) (Dict.keys fs) ->
  exists row : pydict,
    _process_records_from_at self [VDict r] keep_id = Ok [row]
    /\ Dict.get row (_at_rec_id self) = if keep_id then Some i else None.
Proof.
  intros Hid Hfields Hfresh.
  unfold _process_records_from_at. cbn [for_each]. unfold from_at_row, subscript.
  rewrite Hid, Hfields. destruct keep_id; cbn [bind].
  - eexists. split; [reflexivity|].
    rewrite from_at_fold_other by assumption.
    cbn [Dict.get]. now rewrite String.eqb_refl.
  - eexists. split; [reflexivity|].
    now rewrite from_at_fold_other by assumption.
Qed.

Lemma from_at_id_column_witness :
  exists row : pydict,
    _process_records_from_at sample_client [VDict sample_wire_record] true = Ok [row]
    /\ Dict.get row "at_record_id" = Some (VStr "rec1").
Proof.
  apply (from_at_id_column sample_client true sample_wire_record
           sample_wire_fields (VStr "rec1")).
  - reflexivity.
  - reflexivity.
  - simpl. intuition discriminate.
Defined.

Lemma from_at_row_decodable (self : client) (keep_id : bool) (rec : value) :
  raised (from_at_row self keep_id rec) = negb (decodable keep_id rec).
Proof.
  unfold from_at_row, decodable, subscript.
  destruct rec; try reflexivity.
  destruct keep_id.
  - destruct (Dict.get d "id"); cbn [bind];
      destruct (Dict.get d "fields") as [[| | | | | |fs]|]; reflexivity.
  - cbn [bind]. destruct (Dict.get d "fields") as [[| | | | | |fs]|]; reflexivity.
Qed.

(** X6.  [_process_records_from_at] returns exactly when every record
    is a dictionary with a dictionary under ["fields"] and, if the
    identifier is kept, an ["id"]; one record that is not makes the
    whole call raise, and a call that returns gives one row per
    record. *)
Theorem from_at_succeeds_iff (self : client) (records : list value)
    (keep_id : bool) :
  raised (_process_records_from_at self records keep_id)
  = negb (forallb (decodable keep_id) records)
  /\ match _process_records_from_at self records keep_id with
     | Ok rows => List.length rows = List.length records
     | Raise _ => True
     end.
Proof.
  split.
  - unfold _process_records_from_at.
    induction records as [|rec records IH]; cbn [for_each forallb].
    + reflexivity.
    + pose proof (from_at_row_decodable self keep_id rec) as Hrow.
      destruct (from_at_row self keep_id rec) as [row|e]; cbn [raised bind] in *.
      * symmetry in Hrow. apply negb_false_iff in Hrow.
        rewrite Hrow. cbn [andb].
        destruct (for_each (from_at_row self keep_id) records); exact IH.
      * symmetry in Hrow. apply negb_true_iff in Hrow. now rewrite Hrow.
  - destruct (_process_records_from_at self records keep_id) as [rows|e] eqn:Hrun;
      [|exact I].
    now apply length_for_each in Hrun.
Qed.

(* ================================================================== *)
(** * Further properties of the batch planner and the mutating calls *)

(** X7.  No request is empty and none exceeds the limit: every chunk
    holds between one and ten items, and a sequence of [len] items makes
    [ceil(len / 10)] chunks. *)
Theorem chunks_within_limit (A : Type) (S : list A) :
  Forall (fun c => 1 <= List.length c <= n_limit) (chunks S n_limit)
  /\ List.length (chunks S n_limit) = (List.length S + 9) / 10.
Proof.
  assert (Hn : 0 < n_limit) by (unfold n_limit; lia).
  split.
  - now apply chunk_sizes.
  - now apply (chunk_count S n_limit).
Qed.

Section SendChunks.

Context {A : Type}.
Variables (mk : list A -> request) (classify : response -> outcome (list value)).

(** All responses classified as records: every chunk is sent, in
    order, and the records come back concatenated. *)
Lemma send_chunks_all_ok (chunks : list (list A)) :
  forall (resps rest : list response) (records : list value) (log : list request),
    List.length resps = List.length chunks ->
    forallb (fun r => negb (raised (classify r))) resps = true ->
    send_chunks mk classify chunks records (mkSession (resps ++ rest) log)
    = (Ok (records ++ List.concat (map (returned classify) resps)),
       mkSession rest (log ++ map mk chunks)).
Proof.
  induction chunks as [|chunk chunks IH]; intros resps rest records log Hlen Hok.
  - destruct resps; [|discriminate]. simpl. now rewrite !app_nil_r.
  - destruct resps as [|r resps]; [discriminate|].
    cbn [forallb] in Hok. apply andb_prop in Hok. destruct Hok as [Hr Hok].
    cbn [send_chunks app]. unfold send. cbn [pending sent].
    unfold returned at 1. cbn [map List.concat].
    destruct (classify r) as [recs|e]; [|discriminate].
    rewrite IH by (simpl in Hlen; auto; lia).
    f_equal.
    + now rewrite <- app_assoc.
    + now rewrite <- app_assoc.
Qed.

(** A response classified as an error after [k] good ones: chunks
    [0..k] have been sent, the others never are. *)
Lemma send_chunks_stops (chunks : list (list A)) :
  forall (resps rest : list response) (bad : response) (e : exn)
         (records : list value) (log : list request),
    List.length resps < List.length chunks ->
    forallb (fun r => negb (raised (classify r))) resps = true ->
    classify bad = Raise e ->
    send_chunks mk classify chunks records (mkSession (resps ++ bad :: rest) log)
    = (Raise e,
       mkSession rest (log ++ map mk (firstn (S (List.length resps)) chunks))).
Proof.
  induction chunks as [|chunk chunks IH];
    intros resps rest bad e records log Hlen Hok Hbad.
  - simpl in Hlen. lia.
  - destruct resps as [|r resps].
    + cbn [send_chunks app]. unfold send. cbn [pending sent].
      rewrite Hbad. reflexivity.
    + cbn [forallb] in Hok. apply andb_prop in Hok. destruct Hok as [Hr Hok].
      cbn [send_chunks app]. unfold send. cbn [pending sent].
      destruct (classify r) as [recs|e0]; [|discriminate].
      rewrite (IH resps rest bad e) by (simpl in Hlen; auto; lia).
      cbn [List.length firstn map]. now rewrite <- app_assoc.
Qed.

End SendChunks.

Lemma accepted_write (r : response) :
  accepted r = true -> classify_write r = Ok (response_records r).
Proof.
  unfold accepted, classify_write, response_records. intros H.
  apply andb_prop in H. destruct H as [Hs Hb]. rewrite Hs. cbn [negb].
  destruct (body_records (json r)); [reflexivity | discriminate].
Qed.

Lemma accepted_delete (r : response) :
  accepted r = true -> classify_delete r = Ok (response_records r).
Proof.
  unfold accepted, classify_delete, response_records. intros H.
  apply andb_prop in H. destruct H as [Hs Hb]. rewrite Hs. cbn [negb].
  destruct (body_records (json r)); [reflexivity | discriminate].
Qed.

Lemma accepted_all (classify : response -> outcome (list value))
    (resps : list response) :
  (forall r, accepted r = true -> classify r = Ok (response_records r)) ->
  forallb accepted resps = true ->
  forallb (fun r => negb (raised (classify r))) resps = true
  /\ map (returned classify) resps = map response_records resps.
Proof.
  intros Hc Hall. induction resps as [|r resps IH]; cbn [forallb map] in *.
  - split; reflexivity.
  - apply andb_prop in Hall. destruct Hall as [Hr Hall].
    destruct (IH Hall) as [IH1 IH2]. unfold returned at 1.
    rewrite (Hc r Hr), IH1, IH2. split; reflexivity.
Qed.

Lemma payload_unwrap (data : value) (rows : list value) :
  payload_records data = Some rows ->
  unwrap_records data = Ok (VList rows).
Proof.
  destruct data as [| | | | |l|d]; try discriminate; cbn [payload_records].
  - intros H. inversion H. reflexivity.
  - unfold unwrap_records, subscript.
    destruct (Dict.get d "records") as [[| | | | |l|]|]; try discriminate.
    intros H. inversion H. reflexivity.
Qed.

(** X8.  A [write] of data already in wire format, all of whose chunks
    are answered with status 200: one POST per chunk, in order, each
    carrying that chunk under ["records"]; the records of the responses
    are returned concatenated in the same order, responses beyond the
    last chunk are not read, and the client is left as it was. *)
Theorem write_returns_all_records (self : client) (s : session) (table : string)
    (data : value) (rows : list value) (base : option string)
    (process : option bool) (b : string) (resps rest : list response) :
  resolve_base self base = Ok b ->
  resolve_process self process = false ->
  payload_records data = Some rows ->
  pending s = resps ++ rest ->
  List.length resps = List.length (chunks rows n_limit) ->
  forallb accepted resps = true ->
  write self s table data base process
  = (Ok (List.concat (map response_records resps)), self,
     mkSession rest (sent s ++ map (post_request self b table)
                                   (chunks rows n_limit))).
Proof.
  intros Hb Hp Hdata Hpend Hlen Hacc.
  destruct s as [pend log]. cbn [pending sent] in *. subst pend.
  unfold write. rewrite Hb, Hp. cbn [bind].
  rewrite (payload_unwrap data rows Hdata). cbn [bind as_sequence send_sequence].
  destruct (accepted_all classify_write resps accepted_write Hacc) as [Hok Hret].
  rewrite (send_chunks_all_ok _ classify_write (chunks rows n_limit)
             resps rest [] log Hlen Hok).
  rewrite Hret. reflexivity.
Qed.

Lemma write_returns_all_records_witness :
  write sample_client (mkSession [created_ten; created_five; unprocessable] [])
        "tbl" (VList fifteen_rows) None (Some false)
  = (Ok (List.concat (map response_records [created_ten; created_five])),
     sample_client,
     mkSession [unprocessable]
       ([] ++ map (post_request sample_client "appX" "tbl")
                  (chunks fifteen_rows n_limit))).
Proof.
  apply (write_returns_all_records sample_client
           (mkSession [created_ten; created_five; unprocessable] [])
           "tbl" (VList fifteen_rows) fifteen_rows None (Some false) "appX"
           [created_ten; created_five] [unprocessable]);
    reflexivity.
Defined.

(** X9.  A [write] with processing off, of data in wire format (a list
    of records, or a dictionary holding one under ["records"]), stops at
    the first chunk answered with a status other than 200, when the body
    of that answer is one in which ["error"] can be looked for: the
    chunks before it and the failed one have been sent, the later ones
    never are, later responses stay unread, and the call raises the
    [RuntimeError] whose message quotes the text of that response (and
    not its status). *)
Theorem write_stops_at_failed_chunk (self : client) (s : session) (table : string)
    (data : value) (rows : list value) (base : option string)
    (process : option bool) (b : string) (resps rest : list response)
    (bad : response) :
  resolve_base self base = Ok b ->
  resolve_process self process = false ->
  payload_records data = Some rows ->
  pending s = resps ++ bad :: rest ->
  List.length resps < List.length (chunks rows n_limit) ->
  forallb accepted resps = true ->
  status_code bad <> 200%Z ->
  raised (contains_key (json bad) "error") = false ->
  write self s table data base process
  = (Raise (RuntimeError (DidNotReturn200 (text bad))), self,
     mkSession rest
       (sent s ++ map (post_request self b table)
                      (firstn (S (List.length resps)) (chunks rows n_limit)))).
Proof.
  intros Hb Hp Hdata Hpend Hlen Hacc Hs Herr.
  destruct s as [pend log]. cbn [pending sent] in *. subst pend.
  unfold write. rewrite Hb, Hp. cbn [bind].
  rewrite (payload_unwrap data rows Hdata). cbn [bind as_sequence send_sequence].
  destruct (accepted_all classify_write resps accepted_write Hacc) as [Hok _].
  assert (Hbad : classify_write bad
                 = Raise (RuntimeError (DidNotReturn200 (text bad)))).
  { unfold classify_write. apply Z.eqb_neq in Hs. rewrite Hs. cbn [negb].
    destruct (contains_key (json bad) "error"); [reflexivity | discriminate]. }
  rewrite (send_chunks_stops _ classify_write (chunks rows n_limit)
             resps rest bad _ [] log Hlen Hok Hbad).
  reflexivity.
Qed.

Lemma write_stops_at_failed_chunk_witness :
  write sample_client (mkSession [created_ten; unprocessable; created_ten] [])
        "tbl" (VList fifteen_rows) None (Some false)
  = (Raise (RuntimeError (DidNotReturn200 "bad field")), sample_client,
     mkSession [created_ten]
       ([] ++ map (post_request sample_client "appX" "tbl")
                  (firstn 2 (chunks fifteen_rows n_limit)))).
Proof.
  apply (write_stops_at_failed_chunk sample_client
           (mkSession [created_ten; unprocessable; created_ten] [])
           "tbl" (VList fifteen_rows)
           fifteen_rows None (Some false) "appX" [created_ten] [created_ten]
           unprocessable); try reflexivity.
  - simpl. unfold n_limit. lia.
  - simpl. discriminate.
Defined.

(** X10.  With nothing to send, [write], [update] and [delete] make no
    request and return the empty list, whatever [process] is. *)
Theorem empty_data_sends_nothing (self : client) (s : session) (table : string)
    (base : option string) (process : option bool) (keep_none : bool) (b : string) :
  resolve_base self base = Ok b ->
  write self s table (VList []) base process = (Ok [], self, s)
  /\ update self s table (VList []) base process keep_none = (Ok [], self, s)
  /\ delete self s table [] base = (Ok [], self, s).
Proof.
  intros Hb. unfold write, update, delete. rewrite Hb. cbn [bind].
  destruct (resolve_process self process); repeat split; reflexivity.
Qed.

Lemma empty_data_sends_nothing_witness :
  write sample_client (mkSession [unprocessable] []) "tbl" (VList []) None None
    = (Ok [], sample_client, mkSession [unprocessable] [])
  /\ update sample_client (mkSession [unprocessable] []) "tbl" (VList []) None None false
     = (Ok [], sample_client, mkSession [unprocessable] [])
  /\ delete sample_client (mkSession [unprocessable] []) "tbl" [] None
     = (Ok [], sample_client, mkSession [unprocessable] []).
Proof.
  apply (empty_data_sends_nothing sample_client (mkSession [unprocessable] [])
           "tbl" None None false "appX").
  reflexivity.
Defined.

(** X11.  An [update] of flat rows one of which has no identifier
    raises [KeyError] before anything is sent: the rows that do have
    one are not patched either. *)
Theorem update_without_id_sends_nothing (self : client) (s : session)
    (table : string) (rows : list pydict) (row : pydict)
    (base : option string) (process : option bool) (keep_none : bool) (b : string) :
  resolve_base self base = Ok b ->
  resolve_process self process = true ->
  In row rows ->
  Dict.get row (_at_rec_id self) = None ->
  update self s table (VList (map VDict rows)) base process keep_none
  = (Raise (KeyError (_at_rec_id self)), self, s).
Proof.
  intros Hb Hp Hin Hmiss. unfold update. rewrite Hb, Hp. cbn [bind iterate].
  unfold _process_records_for_at.
  rewrite (for_each_update_raises self keep_none rows row Hin
             (for_at_row_update_missing self keep_none row Hmiss)).
  reflexivity.
Qed.

Lemma update_without_id_sends_nothing_witness :
  update sample_client (mkSession [created_ten] []) "tbl"
         (VList (map VDict [[("at_record_id", VStr "rec1"); ("a", VInt 1)];
                            row_a1_bnull]))
         None None true
  = (Raise (KeyError "at_record_id"), sample_client, mkSession [created_ten] []).
Proof.
  apply (update_without_id_sends_nothing sample_client (mkSession [created_ten] [])
           "tbl" [[("at_record_id", VStr "rec1"); ("a", VInt 1)]; row_a1_bnull]
           row_a1_bnull None None true "appX"); try reflexivity.
  simpl. right. left. reflexivity.
Defined.

(** X12.  An [update] of flat rows that all carry an identifier, with
    every chunk answered 200: the PATCH bodies are the chunks of the
    [{"id", "fields"}] records the transcoder makes of the rows, and the
    records of the responses come back concatenated. *)
Theorem update_patches_transcoded_rows (self : client) (s : session)
    (table : string) (rows : list pydict) (recs : list value)
    (base : option string) (process : option bool) (keep_none : bool)
    (b : string) (resps rest : list response) :
  resolve_base self base = Ok b ->
  resolve_process self process = true ->
  _process_records_for_at self (map VDict rows) keep_none false
    = Ok (VDict [("records", VList recs)]) ->
  pending s = resps ++ rest ->
  List.length resps = List.length (chunks recs n_limit) ->
  forallb accepted resps = true ->
  update self s table (VList (map VDict rows)) base process keep_none
  = (Ok (List.concat (map response_records resps)), self,
     mkSession rest (sent s ++ map (patch_request self b table)
                                   (chunks recs n_limit))).
Proof.
  intros Hb Hp Hrows Hpend Hlen Hacc.
  destruct s as [pend log]. cbn [pending sent] in *. subst pend.
  unfold update. rewrite Hb, Hp. cbn [bind iterate]. rewrite Hrows.
  cbn [bind unwrap_records]. rewrite subscript_head. cbn [bind as_sequence send_sequence].
  destruct (accepted_all classify_write resps accepted_write Hacc) as [Hok Hret].
  rewrite (send_chunks_all_ok _ classify_write (chunks recs n_limit)
             resps rest [] log Hlen Hok).
  rewrite Hret. reflexivity.
Qed.

Lemma update_patches_transcoded_rows_witness :
  update sample_client (mkSession [one_record] []) "tbl"
         (VList (map VDict [row_with_id_inf])) None None false
  = (Ok (List.concat (map response_records [one_record])),
     sample_client,
     mkSession []
       ([] ++ map (patch_request sample_client "appX" "tbl")
                  (chunks [record_with_id_inf] n_limit))).
Proof.
  apply (update_patches_transcoded_rows sample_client (mkSession [one_record] [])
           "tbl" [row_with_id_inf] [record_with_id_inf]
           None None false "appX" [one_record] []);
    reflexivity.
Defined.

(** X13.  [delete] with every chunk answered 200: one DELETE per chunk
    of at most ten identifiers, passed as the ["records[]"] parameter,
    and the records of the responses returned concatenated. *)
Theorem delete_returns_all_records (self : client) (s : session) (table : string)
    (list_of_ids : list string) (base : option string) (b : string)
    (resps rest : list response) :
  resolve_base self base = Ok b ->
  pending s = resps ++ rest ->
  List.length resps = List.length (chunks list_of_ids n_limit) ->
  forallb accepted resps = true ->
  delete self s table list_of_ids base
  = (Ok (List.concat (map response_records resps)), self,
     mkSession rest (sent s ++ map (delete_request self b table)
                                   (chunks list_of_ids n_limit))).
Proof.
  intros Hb Hpend Hlen Hacc.
  destruct s as [pend log]. cbn [pending sent] in *. subst pend.
  unfold delete. rewrite Hb.
  destruct (accepted_all classify_delete resps accepted_delete Hacc) as [Hok Hret].
  rewrite (send_chunks_all_ok _ classify_delete (chunks list_of_ids n_limit)
             resps rest [] log Hlen Hok).
  rewrite Hret. reflexivity.
Qed.

Lemma delete_returns_all_records_witness :
  delete sample_client (mkSession [one_record] []) "tbl" ["rec1"; "rec2"] None
  = (Ok (List.concat (map response_records [one_record])),
     sample_client,
     mkSession []
       ([] ++ map (delete_request sample_client "appX" "tbl")
                  (chunks ["rec1"; "rec2"] n_limit))).
Proof.
  apply (delete_returns_all_records sample_client (mkSession [one_record] [])
           "tbl" ["rec1"; "rec2"] None "appX" [one_record] []);
    reflexivity.
Defined.

(** X14.  [delete] stops at the first chunk answered with a status
    other than 200 and raises, whatever the body, the [RuntimeError]
    whose message quotes the text of that response (and not its
    status): the identifiers of the chunks up to that one have been sent
    for deletion, those of the later chunks have not, and later
    responses stay unread. *)
Theorem delete_stops_at_failed_chunk (self : client) (s : session) (table : string)
    (list_of_ids : list string) (base : option string) (b : string)
    (resps rest : list response) (bad : response) :
  resolve_base self base = Ok b ->
  pending s = resps ++ bad :: rest ->
  List.length resps < List.length (chunks list_of_ids n_limit) ->
  forallb accepted resps = true ->
  status_code bad <> 200%Z ->
  delete self s table list_of_ids base
  = (Raise (RuntimeError (DidNotReturn200 (text bad))), self,
     mkSession rest
       (sent s ++ map (delete_request self b table)
                      (firstn (S (List.length resps))
                              (chunks list_of_ids n_limit)))).
Proof.
  intros Hb Hpend Hlen Hacc Hs.
  destruct s as [pend log]. cbn [pending sent] in *. subst pend.
  unfold delete. rewrite Hb.
  destruct (accepted_all classify_delete resps accepted_delete Hacc) as [Hok _].
  assert (Hbad : classify_delete bad
                 = Raise (RuntimeError (DidNotReturn200 (text bad)))).
  { unfold classify_delete. apply Z.eqb_neq in Hs. now rewrite Hs. }
  rewrite (send_chunks_stops _ classify_delete (chunks list_of_ids n_limit)
             resps rest bad _ [] log Hlen Hok Hbad).
  reflexivity.
Qed.

Lemma delete_stops_at_failed_chunk_witness :
  delete sample_client (mkSession [unprocessable; created_ten] [])
         "tbl" ["rec1"; "rec2"] None
  = (Raise (RuntimeError (DidNotReturn200 "bad field")), sample_client,
     mkSession [created_ten]
       ([] ++ map (delete_request sample_client "appX" "tbl")
                  (firstn 1 (chunks ["rec1"; "rec2"] n_limit)))).
Proof.
  apply (delete_stops_at_failed_chunk sample_client
           (mkSession [unprocessable; created_ten] [])
           "tbl" ["rec1"; "rec2"] None
           "appX" [] [created_ten] unprocessable); try reflexivity.
  - simpl. lia.
  - simpl. discriminate.
Defined.

(* ================================================================== *)
(** * Further properties of [get] *)

Lemma page_request_of_set (url : string) (headers params : pydict)
    (offset : value) (rq : request) :
  page_request_of url headers (Dict.set params "offset" offset) rq ->
  page_request_of url headers params rq.
Proof.
  intros [Hm [Hu [Hh [Hd Hp]]]]. repeat split; auto.
  intros k Hk. rewrite Hp by assumption. apply get_set_other. congruence.
Qed.

Lemma page_request_of_next (url : string) (headers params : pydict)
    (offset : value) (rq : request) :
  page_request_of url headers
    (if truthy offset && negb (is_True offset)
     then Dict.update params [("offset", offset)] else params) rq ->
  page_request_of url headers params rq.
Proof.
  destruct (truthy offset && negb (is_True offset)); [|auto].
  apply page_request_of_set.
Qed.

Lemma page_request_of_self (url : string) (headers params : pydict) :
  page_request_of url headers params (mkRequest GET url headers params None).
Proof. repeat split. Qed.

(** Every request of the loop is a GET of the same URL with the same
    headers and, but for ["offset"], the same parameters; and the loop
    sends at least one when it is entered. *)
Lemma get_pages_trace (pending : list response) :
  forall (log : list request) (url : string) (headers params : pydict)
         (offset : value) (records : list value),
  exists new : list request,
    sent (snd (get_pages pending log url headers params offset records))
    = log ++ new
    /\ Forall (page_request_of url headers params) new
    /\ (truthy offset = true -> new <> []).
Proof.
  induction pending as [|r rest IH]; intros log url headers params offset records;
    cbn [get_pages]; destruct (truthy offset) eqn:Ht; cbn [snd sent].
  - eexists [_]. split; [reflexivity|]. split; [|discriminate].
    constructor; [|constructor].
    apply (page_request_of_next url headers params offset).
    rewrite Ht. apply page_request_of_self.
  - exists []. split; [now rewrite app_nil_r|]. split; [constructor | discriminate].
  - set (params' := if true && negb (is_True offset)
                    then Dict.update params [("offset", offset)] else params).
    assert (Hfirst : page_request_of url headers params
                       (mkRequest GET url headers params' None)).
    { apply (page_request_of_next url headers params offset).
      rewrite Ht. apply page_request_of_self. }
    destruct (negb (status_code r =? 200)%Z).
    + eexists [_]. split; [reflexivity|]. split; [|discriminate].
      constructor; [exact Hfirst | constructor].
    + destruct (page_records (json r)) as [recs|e].
      * destruct (IH (log ++ [mkRequest GET url headers params' None]) url headers
                     params' (page_offset (json r)) (records ++ recs))
          as [new [Hs [Hall _]]].
        exists (mkRequest GET url headers params' None :: new).
        split; [now rewrite Hs, <- app_assoc|]. split; [|discriminate].
        constructor; [exact Hfirst|].
        eapply Forall_impl; [|exact Hall].
        intros rq Hrq. apply (page_request_of_next url headers params offset).
        rewrite Ht. exact Hrq.
      * eexists [_]. split; [reflexivity|]. split; [|discriminate].
        constructor; [exact Hfirst | constructor].
  - exists []. split; [now rewrite app_nil_r|]. split; [constructor | discriminate].
Qed.

Lemma view_params (view : option string) :
  Dict.get (match view with
            | Some v => if truthy (VStr v) then Dict.update [] [("view", VStr v)] else []
            | None => []
            end) "view" = view_param view.
Proof.
  unfold view_param. destruct view as [v|]; [|reflexivity].
  destruct (truthy (VStr v)); reflexivity.
Qed.

(** X15.  Every call of [get] that has a base makes at least one
    request; all its requests are body-less GETs of one URL, the cache
    endpoint if a cache token is configured and [direct] is [False], the
    primary endpoint otherwise, and each carries the ["view"] parameter
    of the call.  A call that does not go through the cache leaves the
    client as it was. *)
Theorem get_routes (self : client) (s : session) (table : string)
    (view base : option string) (process : option bool) (direct : bool)
    (b : string) :
  resolve_base self base = Ok b ->
  exists new : list request,
    new <> []
    /\ sent (session_after (get self s table view base process direct))
       = sent s ++ new
    /\ Forall (fun rq =>
                 req_method rq = GET
                 /\ req_url rq
                    = endpoint (if uses_cache self direct
                                then _cache_url self else _at_url self) b table
                 /\ req_data rq = None
                 /\ Dict.get (req_params rq) "view" = view_param view) new
    /\ (uses_cache self direct = false ->
        client_after (get self s table view base process direct) = self).
Proof.
  intros Hb. unfold get, session_after, client_after, uses_cache.
  rewrite Hb.
  match goal with
  | |- context [get_pages ?p ?l ?u ?h ?pa ?o ?rs] =>
      destruct (get_pages_trace p l u h pa o rs) as [new [Hs [Hall Hne]]];
      destruct (get_pages p l u h pa o rs) as [res s'] eqn:Hrun
  end.
  cbn [fst snd] in *. exists new.
  split; [now apply Hne|]. split; [exact Hs|]. split.
  - eapply Forall_impl; [|exact Hall].
    intros rq [Hm [Hu [_ [Hd Hp]]]]. repeat split; auto.
    + rewrite Hu. destruct (_cache_token self); [|reflexivity].
      destruct direct; reflexivity.
    + rewrite Hp by discriminate. apply view_params.
  - destruct (_cache_token self); [|reflexivity].
    destruct direct; [reflexivity | discriminate].
Qed.

Lemma get_routes_witness :
  exists new : list request,
    new <> []
    /\ sent (session_after (get sample_client (mkSession [page_one; page_two] [])
                                "tbl" (Some "Grid") None None false))
       = [] ++ new
    /\ Forall (fun rq =>
                 req_method rq = GET
                 /\ req_url rq
                    = endpoint (if uses_cache sample_client false
                                then _cache_url sample_client
                                else _at_url sample_client) "appX" "tbl"
                 /\ req_data rq = None
                 /\ Dict.get (req_params rq) "view" = view_param (Some "Grid")) new
    /\ (uses_cache sample_client false = false ->
        client_after (get sample_client (mkSession [page_one; page_two] [])
                          "tbl" (Some "Grid") None None false)
        = sample_client).
Proof.
  apply (get_routes sample_client (mkSession [page_one; page_two] [])
           "tbl" (Some "Grid") None None false "appX").
  reflexivity.
Defined.

(** The loop over pages with cursors, then a response that is not 200. *)
Lemma get_pages_bad_status (pages : list response) :
  forall (bad : response) (rest : list response) (log : list request)
         (url : string) (headers params : pydict) (offset : value)
         (records : list value),
    truthy offset = true ->
    forallb good_page pages = true ->
    forallb (fun r => truthy (page_offset (json r))) pages = true ->
    status_code bad <> 200%Z ->
    exists new : list request,
      get_pages (pages ++ bad :: rest) log url headers params offset records
      = (Raise (RuntimeError (NotOk (status_code bad) (text bad))),
         mkSession rest (log ++ new))
      /\ List.length new = S (List.length pages).
Proof.
  induction pages as [|p pages IH];
    intros bad rest log url headers params offset records Ht Hgood Hcur Hs.
  - cbn [app get_pages]. rewrite Ht.
    apply Z.eqb_neq in Hs. rewrite Hs. cbn [negb].
    eexists [_]. split; reflexivity.
  - cbn [forallb] in Hgood, Hcur.
    apply andb_prop in Hgood. destruct Hgood as [Hgp Hgood].
    apply andb_prop in Hcur. destruct Hcur as [Hcp Hcur].
    destruct (good_page_inv p Hgp) as [Hsp Hrp].
    cbn [app get_pages]. rewrite Ht, Hsp, Hrp.
    match goal with
    | |- context [get_pages _ ?l ?u ?h ?pa ?o ?rs] =>
        destruct (IH bad rest l u h pa o rs Hcp Hgood Hcur Hs) as [new [Hrun Hlen]]
    end.
    rewrite Hrun. eexists (_ :: new). split.
    + rewrite <- app_assoc. reflexivity.
    + simpl. now rewrite Hlen.
Qed.

(** X16.  When a page is answered with a status other than 200, [get]
    raises [RuntimeError] with that status and the text of that response
    instead of returning the records of the pages read before it, makes
    no further request and leaves the later responses unread. *)
Theorem get_raises_on_bad_page (self : client) (s : session) (table : string)
    (view base : option string) (process : option bool) (direct : bool)
    (pages : list response) (bad : response) (rest : list response) :
  raised (resolve_base self base) = false ->
  pending s = pages ++ bad :: rest ->
  forallb good_page pages = true ->
  forallb (fun r => truthy (page_offset (json r))) pages = true ->
  status_code bad <> 200%Z ->
  outcome_of (get self s table view base process direct)
    = Raise (RuntimeError (NotOk (status_code bad) (text bad)))
  /\ pending (session_after (get self s table view base process direct)) = rest
  /\ List.length (sent (session_after (get self s table view base process direct)))
     = List.length (sent s) + S (List.length pages).
Proof.
  intros Hb Hpend Hgood Hcur Hs.
  unfold get, outcome_of, session_after.
  destruct (resolve_base self base) as [b|e]; [clear Hb | discriminate].
  rewrite Hpend.
  match goal with
  | |- context [get_pages _ ?l ?u ?h ?pa ?o ?rs] =>
      destruct (get_pages_bad_status pages bad rest l u h pa o rs
                  eq_refl Hgood Hcur Hs) as [new [Hrun Hlen]]
  end.
  rewrite Hrun. cbn [fst snd bind pending sent].
  repeat split. now rewrite length_app, Hlen.
Qed.

Lemma get_raises_on_bad_page_witness :
  outcome_of (get sample_client (mkSession [page_one; server_error; page_two] [])
                  "tbl" None None None true)
    = Raise (RuntimeError (NotOk 500 "Internal Server Error"))
  /\ pending (session_after
       (get sample_client (mkSession [page_one; server_error; page_two] [])
            "tbl" None None None true)) = [page_two]
  /\ List.length (sent (session_after
       (get sample_client (mkSession [page_one; server_error; page_two] [])
            "tbl" None None None true))) = 0 + 2.
Proof.
  apply (get_raises_on_bad_page sample_client
           (mkSession [page_one; server_error; page_two] [])
           "tbl" None None None true [page_one] server_error [page_two]);
    try reflexivity.
  simpl. discriminate.
Defined.

Lemma get_direct_effect (self : client) (s : session) (table : string)
    (view base : option string) (process : option bool) (direct : bool) :
  uses_cache self direct = false ->
  let r := get self s table view base process direct in
  client_after r = self
  /\ logs_with (__headers self) (sent s) (sent (session_after r)).
Proof.
  unfold uses_cache, get, client_after, session_after. intros Hdirect.
  destruct (resolve_base self base) as [b|e]; cbn [fst snd].
  - assert (Hd : match _cache_token self with Some _ => direct | None => true end
                 = true).
    { destruct (_cache_token self); [|reflexivity].
      now apply negb_false_iff in Hdirect. }
    rewrite Hd.
    match goal with
    | |- context [get_pages ?p ?l ?u ?h ?pa ?o ?rs] =>
        pose proof (get_pages_log p l u h pa o rs) as Hlog;
        destruct (get_pages p l u h pa o rs) as [res s']
    end.
    split; [reflexivity | exact Hlog].
  - split; [reflexivity | apply logs_with_refl].
Qed.

Lemma logs_with_trans (h : pydict) (a b c : list request) :
  logs_with h a b -> logs_with h b c -> logs_with h a c.
Proof.
  intros [n1 [-> H1]] [n2 [-> H2]]. exists (n1 ++ n2).
  split; [now rewrite app_assoc | apply Forall_app; now split].
Qed.

Lemma run_calls_direct_log (self : client) (s : session) (calls : list call) :
  forallb (stays_direct self) calls = true ->
  fst (run_calls (self, s) calls) = self
  /\ exists new : list request,
       sent (snd (run_calls (self, s) calls)) = sent s ++ new
       /\ Forall (fun rq => req_headers rq = __headers self) new.
Proof.
  unfold run_calls. revert s.
  induction calls as [|c calls IH]; intros s Hall; cbn [fold_left forallb] in *.
  - split; [reflexivity|]. exists []. split; [now rewrite app_nil_r | constructor].
  - apply andb_prop in Hall. destruct Hall as [Hc Hall].
    assert (Hstep : fst (run_call (self, s) c) = self
                    /\ logs_with (__headers self) (sent s)
                                 (sent (snd (run_call (self, s) c)))).
    { destruct c; cbn [run_call fst snd stays_direct] in *.
      - apply negb_true_iff in Hc.
        apply (get_direct_effect self s table view base process direct Hc).
      - apply write_effect.
      - apply update_effect.
      - apply delete_effect. }
    destruct Hstep as [Hself Hlog].
    destruct (run_call (self, s) c) as [self1 s1]. cbn [fst snd] in *. subst self1.
    destruct (IH s1 Hall) as [Hfinal [new [Hs Hnew]]].
    split; [exact Hfinal|].
    apply (logs_with_trans _ _ _ _ Hlog). exists new. now split.
Qed.

(** X17.  The cache header gets into the client's headers through a
    cache-routed [get] only: over any sequence of [write], [update],
    [delete] and direct [get] calls the client stays exactly as it was,
    and every request is sent with its headers as they were. *)
Theorem direct_calls_keep_client (self : client) (s : session) (calls : list call) :
  forallb (stays_direct self) calls = true ->
  fst (run_calls (self, s) calls) = self
  /\ exists new : list request,
       sent (snd (run_calls (self, s) calls)) = sent s ++ new
       /\ Forall (fun rq => req_headers rq = __headers self) new.
Proof. apply run_calls_direct_log. Qed.

Lemma direct_calls_keep_client_witness :
  fst (run_calls (sample_client,
                  mkSession [page_two; created_ten; unprocessable; page_two] [])
                 later_calls) = sample_client
  /\ exists new : list request,
       sent (snd (run_calls (sample_client,
                             mkSession [page_two; created_ten; unprocessable; page_two] [])
                            later_calls)) = [] ++ new
       /\ Forall (fun rq => req_headers rq = __headers sample_client) new.
Proof.
  apply (direct_calls_keep_client sample_client
           (mkSession [page_two; created_ten; unprocessable; page_two] [])
           later_calls).
  reflexivity.
Defined.

(* ================================================================== *)
(** * Further properties of [match_at_rec_id] *)

Lemma length_remove_rec_exact (i : nat) (rec : pydict) (updated : list pydict) :
  i < List.length updated ->
  S (List.length (remove_rec i rec updated)) = List.length updated.
Proof.
  revert i. induction updated as [|x rest IH]; intros i Hi;
    cbn [remove_rec List.length] in *.
  - lia.
  - destruct i as [|i]; [reflexivity|].
    destruct (py_eq (VDict x) (VDict rec)); [reflexivity|].
    cbn [List.length]. rewrite IH by lia. reflexivity.
Qed.

Lemma match_loop_conserves (self : client) (data_w_id : list pydict)
    (keys : list string) (fuel : nat) :
  forall (i : nat) (updated missing_id not_updated u m n : list pydict),
    match_loop self data_w_id keys fuel i updated missing_id not_updated
    = Some (Ok (u, m, n)) ->
    List.length u + List.length n
    = List.length updated + List.length not_updated
    /\ List.length m + List.length not_updated
       = List.length n + List.length missing_id.
Proof.
  induction fuel as [|fuel IH]; intros i updated missing_id not_updated u m n Hrun;
    cbn [match_loop] in Hrun.
  - destruct (nth_error updated i); [discriminate|].
    inversion Hrun; subst. lia.
  - destruct (nth_error updated i) as [rec|] eqn:Hnth.
    + assert (Hi : i < List.length updated).
      { apply nth_error_Some. congruence. }
      destruct (filter_rows (fun d => keys_agree d rec keys) data_w_id)
        as [[|rec_id more]|e]; try discriminate.
      * destruct (uid_of rec keys []) as [uid|e]; [|discriminate].
        apply IH in Hrun. rewrite !length_app in Hrun. cbn [List.length] in Hrun.
        pose proof (length_remove_rec_exact i rec updated Hi). lia.
      * destruct (1 <? List.length (rec_id :: more))%nat; [discriminate|].
        destruct (subscript rec_id (_at_rec_id self)); [|discriminate].
        apply IH in Hrun. rewrite length_assign_at in Hrun. exact Hrun.
    + inversion Hrun; subst. lia.
Qed.

(** X18.  [match_at_rec_id] always comes to an end, and when it returns
    its three lists add up: [updated] and [not_updated] together have as
    many rows as [data_wo_id], and [missing_id] has one key tuple per
    row of [not_updated].  The numbers only: [updated.remove(rec)] takes
    out the first row equal to [rec], which can be another row than
    [rec], so that a row can be gone from the result while an equal one
    is there twice. *)
Theorem match_conserves_rows (self : client) (data_wo_id data_w_id : list pydict)
    (keys : list string) :
  match match_at_rec_id self data_wo_id data_w_id keys with
  | Some (Ok (updated, missing_id, not_updated)) =>
      List.length updated + List.length not_updated = List.length data_wo_id
      /\ List.length missing_id = List.length not_updated
  | Some (Raise _) => True
  | None => False
  end.
Proof.
  pose proof (match_at_rec_id_total self data_wo_id data_w_id keys) as Htotal.
  destruct (match_at_rec_id self data_wo_id data_w_id keys)
    as [[[[updated missing_id] not_updated]|e]|] eqn:Hrun.
  - unfold match_at_rec_id in Hrun.
    apply match_loop_conserves in Hrun. cbn [List.length] in Hrun. lia.
  - exact I.
  - now apply Htotal.
Qed.

(** Three unmatched rows, the second equal to the third ([1 == True]):
    when the loop comes to the third (the second is skipped, the list
    having shrunk under the iterator) [remove] takes out the second, so
    the third row is returned both as updated and as not updated, and
    the second in neither. *)
Example match_removes_equal_row :
  match_at_rec_id sample_client
    [[("uid", VInt 5)]; [("uid", VInt 1)]; [("uid", VBool true)]] [] ["uid"]
  = Some (Ok ([[("uid", VBool true)]],
              [[("uid", VInt 5)]; [("uid", VBool true)]],
              [[("uid", VInt 5)]; [("uid", VBool true)]])).
Proof. reflexivity. Qed.

Lemma assign_at_middle (pre post : list pydict) (rec : pydict)
    (k : string) (v : value) :
  assign_at (List.length pre) k v (pre ++ rec :: post)
  = pre ++ Dict.set rec k v :: post.
Proof.
  induction pre as [|x pre IH]; cbn [assign_at List.length app].
  - reflexivity.
  - now rewrite IH.
Qed.

Lemma nth_error_middle (pre post : list pydict) (rec : pydict) :
  nth_error (pre ++ rec :: post) (List.length pre) = Some rec.
Proof.
  induction pre as [|x pre IH]; cbn [nth_error List.length app]; auto.
Qed.

Lemma match_loop_all_unique (self : client) (data_w_id : list pydict)
    (keys : list string) (todo : list pydict) :
  forall (fuel : nat) (done : list pydict),
    List.length todo <= fuel ->
    forallb (unique_match self data_w_id keys) todo = true ->
    match_loop self data_w_id keys fuel (List.length done) (done ++ todo) [] []
    = Some (Ok (done ++ map (attach_id self data_w_id keys) todo, [], [])).
Proof.
  induction todo as [|rec todo IH]; intros fuel done Hfuel Hall.
  - rewrite app_nil_r. cbn [map]. rewrite app_nil_r.
    assert (Hend : nth_error done (List.length done) = None).
    { apply nth_error_None. lia. }
    destruct fuel; cbn [match_loop]; now rewrite Hend.
  - cbn [forallb] in Hall. apply andb_prop in Hall. destruct Hall as [Hrec Hall].
    destruct fuel as [|fuel]; [simpl in Hfuel; lia|].
    cbn [match_loop]. rewrite nth_error_middle.
    unfold unique_match, candidates in Hrec.
    assert (Hatt : attach_id self data_w_id keys rec
                   = match filter_rows (fun d => keys_agree d rec keys) data_w_id with
                     | Ok [d] =>
                         match Dict.get d (_at_rec_id self) with
                         | Some v => Dict.set rec (_at_rec_id self) v
                         | None => rec
                         end
                     | _ => rec
                     end) by reflexivity.
    destruct (filter_rows (fun d => keys_agree d rec keys) data_w_id)
      as [[|d [|d' more]]|e]; try discriminate.
    cbn [List.length Nat.ltb Nat.leb]. unfold subscript.
    destruct (Dict.get d (_at_rec_id self)) as [v|]; [|discriminate].
    rewrite assign_at_middle.
    replace (done ++ Dict.set rec (_at_rec_id self) v :: todo)
      with ((done ++ [Dict.set rec (_at_rec_id self) v]) ++ todo)
      by (now rewrite <- app_assoc).
    replace (S (List.length done))
      with (List.length (done ++ [Dict.set rec (_at_rec_id self) v]))
      by (rewrite length_app; simpl; lia).
    rewrite IH by (simpl in Hfuel; auto; lia).
    cbn [map]. rewrite Hatt, <- app_assoc. reflexivity.
Qed.

(** X19.  When every row has exactly one candidate and that candidate
    carries an identifier, [match_at_rec_id] returns every row, in
    order, with its candidate's identifier set, and reports nothing
    missing. *)
Theorem match_attaches_every_id (self : client) (data_wo_id data_w_id : list pydict)
    (keys : list string) :
  forallb (unique_match self data_w_id keys) data_wo_id = true ->
  match_at_rec_id self data_wo_id data_w_id keys
  = Some (Ok (map (attach_id self data_w_id keys) data_wo_id, [], [])).
Proof.
  intros Hall. unfold match_at_rec_id.
  apply (match_loop_all_unique self data_w_id keys data_wo_id
           (List.length data_wo_id) []); auto.
Qed.

Lemma match_attaches_every_id_witness :
  match_at_rec_id sample_client [uid_row 1; uid_row 2]
    [uid_row_with_id 2 "recB"; uid_row_with_id 1 "recA"] ["uid"]
  = Some (Ok (map (attach_id sample_client
                     [uid_row_with_id 2 "recB"; uid_row_with_id 1 "recA"] ["uid"])
                  [uid_row 1; uid_row 2], [], [])).
Proof.
  apply (match_attaches_every_id sample_client [uid_row 1; uid_row 2]
           [uid_row_with_id 2 "recB"; uid_row_with_id 1 "recA"] ["uid"]).
  reflexivity.
Defined.

Lemma filter_rows_no_keys (rec : pydict) (data_w_id : list pydict) :
  filter_rows (fun d => keys_agree d rec []) data_w_id = Ok data_w_id.
Proof.
  induction data_w_id as [|d l IH]; cbn [filter_rows].
  - reflexivity.
  - rewrite IH. reflexivity.
Qed.

(** X20.  With an empty key list every row of [data_w_id] agrees with
    every row under test, so as soon as [data_w_id] has two rows and
    there is a row to match the call raises the duplicate error. *)
Theorem match_no_keys_is_ambiguous (self : client) (rec : pydict)
    (rest : list pydict) (d1 d2 : pydict) (more : list pydict) :
  match_at_rec_id self (rec :: rest) (d1 :: d2 :: more) []
  = Some (Raise (RuntimeError (DuplicateRecords [] (d1 :: d2 :: more)))).
Proof.
  unfold match_at_rec_id. cbn [List.length].
  apply (match_loop_ambiguous self (d1 :: d2 :: more) [] (List.length rest) 0
           (rec :: rest) [] [] rec (d1 :: d2 :: more)).
  - reflexivity.
  - apply filter_rows_no_keys.
  - simpl. lia.
Qed.

Lemma uid_of_first_missing (rec : pydict) (pre post : list string) (k : string) :
  forall acc : pydict,
    Forall (fun key => Dict.get rec key <> None) pre ->
    Dict.get rec k = None ->
    uid_of rec (pre ++ k :: post) acc = Raise (KeyError k).
Proof.
  induction pre as [|key pre IH]; intros acc Hpre Hk; cbn [app uid_of].
  - unfold subscript. rewrite Hk. reflexivity.
  - inversion Hpre as [|? ? Hkey Hpre']; subst.
    unfold subscript at 1.
    destruct (Dict.get rec key) as [v|]; [|congruence].
    cbn [bind]. now apply IH.
Qed.

(** X21.  A row with no candidate must still have every key: with
    [data_w_id] empty, when the first row has the keys [pre] and lacks
    the key [k] that comes next in [keys], building its key tuple raises
    [KeyError] on [k], the first key it lacks, whatever the keys after
    [k] and the other rows are, and the call returns nothing. *)
Theorem match_unmatched_row_needs_keys (self : client) (rec : pydict)
    (rest : list pydict) (pre post : list string) (k : string) :
  Forall (fun key => Dict.get rec key <> None) pre ->
  Dict.get rec k = None ->
  match_at_rec_id self (rec :: rest) [] (pre ++ k :: post)
  = Some (Raise (KeyError k)).
Proof.
  intros Hpre Hk.
  unfold match_at_rec_id. cbn [List.length match_loop nth_error filter_rows].
  now rewrite (uid_of_first_missing rec pre post k [] Hpre Hk).
Qed.

(** The row has ["uid"] and neither ["name"] nor ["other"]: the error
    names ["name"]. *)
Lemma match_unmatched_row_needs_keys_witness :
  match_at_rec_id sample_client [uid_row 1; uid_row 2] []
    (["uid"] ++ "name" :: ["other"])
  = Some (Raise (KeyError "name")).
Proof.
  apply (match_unmatched_row_needs_keys sample_client (uid_row 1) [uid_row 2]
           ["uid"] ["other"] "name").
  - constructor; [discriminate | constructor].
  - reflexivity.
Defined.

(* ================================================================== *)
(** * The constructor and the calls together *)

(** X22.  A client fresh from its constructor sends, on every request
    of any sequence of calls that does not go through the cache, the
    [Authorization] header built from its API key and the JSON content
    type, and no cache header, even when a cache token is configured. *)
Theorem fresh_client_headers (apikey : string) (process : bool)
    (personal_token cache_token base : option string) (s : session)
    (calls : list call) :
  forallb (stays_direct (__init__ apikey process personal_token cache_token base))
          calls = true ->
  exists new : list request,
    sent (snd (run_calls
                 (__init__ apikey process personal_token cache_token base, s)
                 calls)) = sent s ++ new
    /\ Forall (fun rq =>
                 Dict.get (req_headers rq) "Authorization"
                   = Some (VStr (String.append "Bearer " apikey))
                 /\ Dict.get (req_headers rq) "Content-Type"
                    = Some (VStr "application/json")
                 /\ Dict.get (req_headers rq) "X-Mw-Bearer" = None) new.
Proof.
  intros Hall.
  destruct (run_calls_direct_log
              (__init__ apikey process personal_token cache_token base) s calls Hall)
    as [_ [new [Hs Hnew]]].
  exists new. split; [exact Hs|].
  eapply Forall_impl; [|exact Hnew].
  intros rq Hrq. rewrite Hrq. repeat split.
Qed.

Lemma fresh_client_headers_witness :
  exists new : list request,
    sent (snd (run_calls
                 (__init__ "key" true None (Some "tok") (Some "appX"),
                  mkSession [page_two; created_ten; unprocessable; page_two] [])
                 later_calls)) = [] ++ new
    /\ Forall (fun rq =>
                 Dict.get (req_headers rq) "Authorization"
                   = Some (VStr (String.append "Bearer " "key"))
                 /\ Dict.get (req_headers rq) "Content-Type"
                    = Some (VStr "application/json")
                 /\ Dict.get (req_headers rq) "X-Mw-Bearer" = None) new.
Proof.
  apply (fresh_client_headers "key" true None (Some "tok") (Some "appX")
           (mkSession [page_two; created_ten; unprocessable; page_two] [])
           later_calls).
  reflexivity.
Defined.
